(** * c19.text_preprocessing: normalisation, sampling, chunking and the driver

    A shallow embedding of [src/main/python/c19/text_preprocessing.py].
    Python strings are [string]s of ASCII characters, Python lists are
    [list]s, the NLTK stop-word [set] is a [gset string], exceptions are an
    explicit [result] type, and the side effects of the module (the random
    generator behind [shuffle], the SQLite store, the console and the clock)
    are passed around as explicit state. *)

From Stdlib Require Import ZArith Lia Ascii String QArith.
From stdpp Require Import base option list strings gmap pretty.

(** ** Python results and exceptions *)

Inductive exn : Type :=
  | TypeError
  | ValueError
  | IndexError
  | AssertionError
  | OperationalError          (* sqlite3.OperationalError *)
  | OtherError (name : string).

Global Instance exn_eq_dec : EqDecision exn.
Proof. solve_decision. Defined.

Inductive result (A : Type) : Type :=
  | Return (a : A)
  | Raise (e : exn).
Arguments Return {A} a.
Arguments Raise {A} e.

(** [x ← r; k] runs [k] on the value of [r] and lets an exception of [r]
    propagate. *)
Global Instance result_ret : MRet result := λ A a, Return a.
Global Instance result_bind : MBind result := λ A B k r,
  match r with
  | Return a => k a
  | Raise e => Raise e
  end.

(** ** Characters and words *)

Definition in_range (lo hi : nat) (c : ascii) : bool :=
  (lo <=? nat_of_ascii c) && (nat_of_ascii c <=? hi).

Definition is_lower (c : ascii) : bool := in_range 97 122 c.   (* a-z *)
Definition is_upper (c : ascii) : bool := in_range 65 90 c.    (* A-Z *)
Definition is_digit (c : ascii) : bool := in_range 48 57 c.    (* 0-9 *)
Definition is_alpha (c : ascii) : bool := is_lower c || is_upper c.

(** The class [\w] on ASCII text: letters, digits and the underscore. *)
Definition is_word_char (c : ascii) : bool :=
  is_alpha c || is_digit c || Nat.eqb (nat_of_ascii c) 95.

Definition lower_char (c : ascii) : ascii :=
  if is_upper c then ascii_of_nat (nat_of_ascii c + 32) else c.

(** [str.lower()] *)
Fixpoint lower (s : string) : string :=
  match s with
  | EmptyString => EmptyString
  | String c s' => String (lower_char c) (lower s')
  end.

(** [re.findall(r"\w+", s)], which is what [RegexpTokenizer(r"\w+").tokenize]
    computes: the maximal runs of word characters, left to right. [cur] is the
    run being read, in reverse. *)
Definition flush (cur : list ascii) (acc : list string) : list string :=
  match cur with
  | [] => acc
  | _ => acc ++ [string_of_list_ascii (rev cur)]
  end.

Fixpoint findall_word (s : string) (cur : list ascii) (acc : list string)
  : list string :=
  match s with
  | EmptyString => flush cur acc
  | String c s' =>
      if is_word_char c then findall_word s' (c :: cur) acc
      else findall_word s' [] (flush cur acc)
  end.

Definition regexp_tokenize (s : string) : list string := findall_word s [] [].

(** [re.compile(r"[a-z]").match(word)]: the match is anchored at the start of
    the word, so it succeeds exactly when the first character is in a-z. *)
Definition letter_pattern_match (word : string) : bool :=
  match word with
  | EmptyString => false
  | String c _ => is_lower c
  end.

(** ** The capabilities taken from NLTK

    [sent_tokenize] is the Punkt sentence splitter, [tokenize] the method of
    [RegexpTokenizer(r"\w+")], [stop_words] the set
    [set(stopwords.words("english"))] and [stem] the method of
    [SnowballStemmer("english")]. *)
Record nltk : Type := Nltk {
  sent_tokenize : string → list string;
  tokenize : string → list string;
  stop_words : gset string;
  stem : string → string
}.

(** ** preprocess_text *)

Section Normalizer.
Context (K : nltk).

Definition filter_stopwords (sentence : list string) : list string :=
  filter (λ word, word ∉ stop_words K) sentence.

Definition do_stemming (sentence : list string) : list string :=
  stem K <$> sentence.

Definition remove_numeric_words (sentence : list string) : list string :=
  filter (λ word, letter_pattern_match word = true) sentence.

Definition preprocess_text (text : string) (stem_words remove_num : bool)
  : list (list string) * list string :=
  let sentences_raw := sent_tokenize K text in
  let sentences := lower <$> sentences_raw in
  let sentences := tokenize K <$> sentences in
  let sentences := filter_stopwords <$> sentences in
  let sentences :=
    if stem_words then do_stemming <$> sentences else sentences in
  let sentences :=
    if remove_num then remove_numeric_words <$> sentences else sentences in
  let sentences :=
    (λ sentence, filter (λ word, 1 < String.length word) sentence)
      <$> filter (λ sentence, sentence ≠ []) sentences in
  (sentences, sentences_raw).

(** The value of the variable [sentences] when line 66 has run, before the
    comprehension of lines 68-69. *)
Definition sentences_before_filter (text : string)
    (stem_words remove_num : bool) : list (list string) :=
  let sentences := lower <$> sent_tokenize K text in
  let sentences := tokenize K <$> sentences in
  let sentences := filter_stopwords <$> sentences in
  let sentences :=
    if stem_words then do_stemming <$> sentences else sentences in
  if remove_num then remove_numeric_words <$> sentences else sentences.
End Normalizer.

(** A small instance used to run the definitions: sentences end at a full
    stop followed by a blank, the tokenizer is the ASCII reading of [\w+],
    the stop words are a few entries of the English list and the stemmer
    strips a final "s". *)
Fixpoint split_sentences (s : string) (cur : list ascii) : list string :=
  match s with
  | EmptyString => flush cur []
  | String c s' =>
      match s' with
      | String " " s'' =>
          if Ascii.eqb c "."
          then string_of_list_ascii (rev (c :: cur)) :: split_sentences s'' []
          else split_sentences s' (c :: cur)
      | _ => split_sentences s' (c :: cur)
      end
  end.

Definition strip_s (w : string) : string :=
  match rev (list_ascii_of_string w) with
  | "s"%char :: r => string_of_list_ascii (rev r)
  | _ => w
  end.

Definition sample_nltk : nltk :=
  {| sent_tokenize := λ s, split_sentences s [];
     tokenize := regexp_tokenize;
     stop_words := list_to_set ["i"; "a"; "the"; "is"; "it"; "of"; "and"; "to"; "in"];
     stem := strip_s |}.


(** ** split_into_chunks *)

(** The indices produced by [range(0, stop, step)] for a positive [step],
    read off one at a time as the [for] loop does. [fuel] bounds the number of
    iterations. *)
Fixpoint range_from (fuel ndx stop step : nat) : list nat :=
  match fuel with
  | 0 => []
  | S fuel' =>
      if decide (ndx < stop)
      then ndx :: range_from fuel' (ndx + step) stop step
      else []
  end.

(** [range(0, stop, step)]: a zero step raises [ValueError]; a negative step
    counts down from 0 and yields nothing, since [stop] is a length. *)
Definition range0 (stop : nat) (step : Z) : result (list nat) :=
  if decide (step = 0)%Z then Raise ValueError
  else if decide (step < 0)%Z then Return []
  else Return (range_from stop 0 stop (Z.to_nat step)).

(** [iterable[lo:hi]] for [0 <= lo] and [0 <= hi]. *)
Definition slice {A} (iterable : list A) (lo hi : nat) : list A :=
  take (hi - lo) (drop lo iterable).

(** [min(ndx + chunks_size, total_size)] is computed on integers. *)
Definition chunk_end (ndx : nat) (chunks_size : Z) (total_size : nat) : nat :=
  Z.to_nat (Z.min (Z.of_nat ndx + chunks_size) (Z.of_nat total_size)).

Definition split_into_chunks {A} (iterable : list A) (chunks_size : Z)
  : result (list (list A)) :=
  let total_size := length iterable in
  ndxs ← range0 total_size chunks_size;
  Return ((λ ndx, slice iterable ndx (chunk_end ndx chunks_size total_size))
            <$> (ndxs : list nat)).

(** ** Randomness: [random.shuffle]

    [shuffle(x)] reorders [x] in place with the module-wide generator of
    [random]. The generator is an explicit state [rng]; from a state and a
    length it yields the order in which the positions [0 .. n-1] are laid
    out, which is a permutation of them, and the next state. *)
Class Shuffler : Type := {
  rng : Type;
  shuffle_order : rng → nat → list nat * rng;
  shuffle_order_perm : ∀ g n, (shuffle_order g n).1 ≡ₚ seq 0 n
}.

Definition shuffle `{Shuffler} {A} (g : rng) (x : list A) : list A * rng :=
  let '(order, g') := shuffle_order g (length x) in
  (omap (λ i, x !! i) order, g').

(** ** Rows, articles and the embedding model *)

(** A row is the five-element Python list built at lines 122-125; its last
    entry is [None] when there is no embedding. *)
Definition row : Type := list (option string).

(** An article is the tuple [(id, title, abstract, body)]; a text field may
    be [None]. *)
Definition article : Type :=
  string * option string * option string * option string.

(** The vectorization collaborator. [compute_sentence_vector] may raise, and
    it may return [None] instead of a vector (no word of the sentence is in
    the model). [num] is the type of the vector components. *)
Record embedding (num : Type) : Type := Embedding {
  compute_sentence_vector : list string → result (option (list num))
}.
Arguments compute_sentence_vector {num} _ _.

(** [try: body except <exception>: handler] *)
Definition try_except {A} (body : result A) (exception : exn)
    (handler : result A) : result A :=
  match body with
  | Return a => Return a
  | Raise e => if decide (e = exception) then handler else Raise e
  end.

(** A [for] loop whose body updates a value, advances the generator and may
    raise, which ends the loop. *)
Fixpoint for_each `{Shuffler} {X S : Type}
    (body : X → S → rng → result S * rng) (xs : list X) (s : S) (g : rng)
  : result S * rng :=
  match xs with
  | [] => (Return s, g)
  | x :: xs' =>
      match body x s g with
      | (Return s', g') => for_each body xs' s' g'
      | (Raise e, g') => (Raise e, g')
      end
  end.

(** ** pre_process_batch_of_articles, without its decorator *)

Section Worker.
Context `{Shuffler} (K : nltk).
Context {num : Type} (str : num → string).
Context (json_dumps : list string → string).

(** Lines 107-109, applied to the body section: pair the two lists, shuffle
    the pairs, keep the first 20 and split them again. Unzipping an
    empty list yields nothing to unpack into the two names, which raises
    [ValueError]. *)
Definition sample_body_section (g : rng)
    (pp_sentences : list (list string)) (sentences_raw : list string)
  : result (list (list string) * list string) * rng :=
  let temp_list := zip pp_sentences sentences_raw in
  let '(temp_list, g) := shuffle g temp_list in
  match take 20 temp_list with
  | [] => (Raise ValueError, g)
  | kept => (Return (kept.*1, kept.*2), g)
  end.

(** Lines 114-120: [vector]. [map(str, None)] raises [TypeError]. *)
Definition sentence_vector (embedding_model : option (embedding num))
    (pp_sentence : list string) : result (option string) :=
  match embedding_model with
  | Some model =>
      v ← compute_sentence_vector model pp_sentence;
      match v with
      | Some components =>
          Return (Some (json_dumps (str <$> (components : list num))))
      | None => Raise TypeError
      end
  | None => Return None
  end.

(** Lines 113-128, the body of the loop over the sentence pairs. The
    [try] block encloses the construction of the row and the [append]
    only; [vector] is computed before it. *)
Definition sentence_step (embedding_model : option (embedding num))
    (article_id section : string) (pair : list string * string)
    (articles_rows : list row) (g : rng) : result (list row) * rng :=
  let '(pp_sentence, raw_sentence) := pair in
  if decide (pp_sentence ≠ []) then
    match sentence_vector embedding_model pp_sentence with
    | Raise e => (Raise e, g)
    | Return vector =>
        let row_to_insert :=
          [Some article_id; Some section; Some raw_sentence;
           Some (json_dumps pp_sentence); vector] in
        (try_except (Return (articles_rows ++ [row_to_insert]))
           TypeError (Return articles_rows), g)
    end
  else (Return articles_rows, g).

(** Lines 100-128, the body of the loop over the three sections. *)
Definition section_step (embedding_model : option (embedding num))
    (stem_words remove_num : bool) (article_id : string)
    (section_data : string * option string)
    (articles_rows : list row) (g : rng) : result (list row) * rng :=
  let '(section, data) := section_data in
  match data with
  | None => (Return articles_rows, g)
  | Some data =>
      let '(pp_sentences, sentences_raw) :=
        preprocess_text K data stem_words remove_num in
      if decide (0 < length pp_sentences) then
        let '(sampled, g) :=
          if decide (section = "body")
          then sample_body_section g pp_sentences sentences_raw
          else (Return (pp_sentences, sentences_raw), g) in
        match sampled with
        | Raise e => (Raise e, g)
        | Return (pp_sentences, sentences_raw) =>
            for_each (sentence_step embedding_model article_id section)
              (zip pp_sentences sentences_raw) articles_rows g
        end
      else (Return articles_rows, g)
  end.

(** Lines 90-128, the body of the loop over the articles. *)
Definition article_step (embedding_model : option (embedding num))
    (stem_words remove_num : bool) (article : article)
    (articles_rows : list row) (g : rng) : result (list row) * rng :=
  let '(article_id, article_title, article_abstract, article_body) :=
    article in
  for_each (section_step embedding_model stem_words remove_num article_id)
    (zip ["title"; "abstract"; "body"]
         [article_title; article_abstract; article_body])
    articles_rows g.

(** The function under the decorator; [args] is the tuple
    [(batch, embedding_model, stem_words, remove_num)]. *)
Definition pre_process_batch_of_articles_body
    (args : list article * option (embedding num) * bool * bool) (g : rng)
  : result (list row) * rng :=
  let '(batch, embedding_model, stem_words, remove_num) := args in
  for_each (article_step embedding_model stem_words remove_num)
    batch [] g.
End Worker.

(** The shape of the rows built at lines 122-125 for a given model: five
    entries, a section name of line 98, the JSON text of a non-empty token
    list, and a vector exactly when there is a model. *)
Definition row_shape {num : Type} (json_dumps : list string → string)
    (embedding_model : option (embedding num)) (r : row) : Prop :=
  ∃ article_id section raw_sentence pp_sentence vector,
    r = [Some article_id; Some section; Some raw_sentence;
         Some (json_dumps pp_sentence); vector] ∧
    section ∈ ["title"; "abstract"; "body"] ∧
    pp_sentence ≠ [] ∧
    (vector = None ↔ embedding_model = None).

(** ** The retry decorator *)

(** What a decorated call does, oldest first: a call of the function, with
    the exception it raised if any, or a pause of [delay] seconds. *)
Inductive retry_event : Type :=
  | Called (raised : option exn)
  | Slept (delay : Q).

(** Modelled from the spec: the decorator [retry] of the third-party package
    of that name, whose code is not among the sources; the sources give its
    arguments only (line 73). It is the bounded-retry wrapper parameterized
    by (exception kind, maximum attempts, fixed delay): the function is
    called; when it raises the given exception and attempts are left, the
    wrapper pauses for [delay] and calls it again; any other exception, and
    the given one on the last attempt, propagates. [tries] is at least 1. *)
Fixpoint retry {S A : Type} (exception : exn) (tries : nat) (delay : Q)
    (f : S → result A * S) (s : S) : result A * S * list retry_event :=
  match f s with
  | (Return a, s') => (Return a, s', [Called None])
  | (Raise e, s') =>
      if decide (e = exception) then
        match tries with
        | S (S _ as tries') =>
            let '(r, s'', events) := retry exception tries' delay f s' in
            (r, s'', Called (Some e) :: Slept delay :: events)
        | _ => (Raise e, s', [Called (Some e)])
        end
      else (Raise e, s', [Called (Some e)])
  end.


(** Lines 73-74: [@retry(sqlite3.OperationalError, tries=5, delay=2)]. *)
Definition pre_process_batch_of_articles `{Shuffler} (K : nltk)
    {num : Type} (str : num → string) (json_dumps : list string → string)
    (args : list article * option (embedding num) * bool * bool) (g : rng)
  : result (list row) * rng * list retry_event :=
  retry OperationalError 5 2
    (pre_process_batch_of_articles_body K str json_dumps args) g.

(** ** The store, the console and the worker pool *)

(** The lines printed by the driver; the elapsed times it reports are left
    out. *)
Inductive message : Type :=
  | DbWillBeUsed (db_path : string)
  | FilesToPreProcess (files batches first_batch : nat)
  | TookToPreProcess (batches : nat)
  | TookToInsert (sentences : nat) (db_path : string).

Inductive event : Type :=
  | Printed (msg : message)
  | Loaded (articles : nat)
  | Worker (batch : list article) (calls : list retry_event)
  | Paused (seconds : Q)
  | Inserted (table_name : string) (rows : nat).

(** The store at [db_path] and the trace of what a run did, oldest first. *)
Record world : Type := World {
  db_is_file : bool;                       (* os.path.isfile(db_path) *)
  db_articles : list article;
  db_tables : gmap string (list row);
  trace : list event
}.

Definition emit (ev : event) (w : world) : world :=
  World (db_is_file w) (db_articles w) (db_tables w) (trace w ++ [ev]).

(** Modelled from the spec: [get_all_articles_data] of
    [c19.database_utilities], which is not among the sources. It fetches all
    records of the store as (id, title, abstract, body) tuples and writes
    nothing. *)
Definition get_all_articles_data (w : world) : list article * world :=
  (db_articles w, emit (Loaded (length (db_articles w))) w).

(** Modelled from the spec: [insert_rows] of [c19.database_utilities], which
    is not among the sources. It appends the rows to the named table, as one
    transaction. *)
Definition insert_rows (list_to_insert : list row) (table_name : string)
    (w : world) : world :=
  emit (Inserted table_name (length list_to_insert))
    (World (db_is_file w) (db_articles w)
       (<[table_name := default [] (db_tables w !! table_name) ++ list_to_insert]>
          (db_tables w))
       (trace w)).

(** [imap_unordered] hands the results over in the order in which the tasks
    complete, which is the pool's choice: a permutation of the positions of
    the submitted tasks. *)
Class Pool : Type := {
  completion_order : nat → list nat;
  completion_order_perm : ∀ n, completion_order n ≡ₚ seq 0 n
}.

(** The first exception among the results, in the order given, is raised
    when the results are gathered in a list. *)
Fixpoint gather {A} (results : list (result A)) : result (list A) :=
  match results with
  | [] => Return []
  | Return a :: rest => batch ← gather rest; Return (a :: (batch : list A))
  | Raise e :: _ => Raise e
  end.

(** ** pre_process_and_vectorize_texts *)

Section Driver.
Context `{Shuffler} `{Pool} (K : nltk).
Context {num : Type} (str : num → string).
Context (json_dumps : list string → string).

(** The tasks of the pool, each one a decorated worker call. They are run
    here one after the other on the same generator. *)
Fixpoint run_tasks
    (arguments : list (list article * option (embedding num) * bool * bool))
    (g : rng) (w : world) : list (result (list row)) * rng * world :=
  match arguments with
  | [] => ([], g, w)
  | args :: rest =>
      let '(r, g', calls) :=
        pre_process_batch_of_articles K str json_dumps args g in
      let '(rs, g'', w') := run_tasks rest g' (emit (Worker args.1.1.1 calls) w) in
      (r :: rs, g'', w')
  end.

(** Lines 200-207. *)
Fixpoint insert_batches (batches_to_insert : list (list row))
    (inserted_sentences : nat) (w : world) : nat * world :=
  match batches_to_insert with
  | [] => (inserted_sentences, w)
  | article_sentences :: rest =>
      insert_batches rest (inserted_sentences + length article_sentences)
        (insert_rows article_sentences "sentences" w)
  end.

Definition pre_process_and_vectorize_texts
    (embedding_model : option (embedding num)) (db_path : string)
    (first_launch stem_words remove_num : bool) (batch_size : Z)
    (g : rng) (w : world) : result unit * rng * world :=
  if first_launch then
    let '(articles, w) := get_all_articles_data w in
    match split_into_chunks articles batch_size with
    | Raise e => (Raise e, g, w)
    | Return batches =>
        let arguments :=
          (λ batch, (batch, embedding_model, stem_words, remove_num))
            <$> batches in
        match batches !! 0 with
        | None => (Raise IndexError, g, w)
        | Some first_batch =>
            let w := emit (Printed (FilesToPreProcess (length articles)
                             (length batches) (length first_batch))) w in
            let '(results, g, w) := run_tasks arguments g w in
            let arrived :=
              omap (λ i, results !! i) (completion_order (length results)) in
            match gather arrived with
            | Raise e => (Raise e, g, w)
            | Return batches_to_insert =>
                let w := emit (Printed (TookToPreProcess
                                 (length batches_to_insert))) w in
                let w := emit (Paused (1 # 2)) w in
                let '(inserted_sentences, w) :=
                  insert_batches batches_to_insert 0 w in
                (Return (),
                 g,
                 emit (Printed (TookToInsert inserted_sentences db_path)) w)
            end
        end
    end
  else if db_is_file w
  then (Return (), g, emit (Printed (DbWillBeUsed db_path)) w)
  else (Raise AssertionError, g, w).
End Driver.

(** ** Instances used to run the definitions *)

(** A generator that lays the positions out backwards. *)
Definition backwards : Shuffler :=
  {| rng := unit;
     shuffle_order := λ g n, (reverse (seq 0 n), g);
     shuffle_order_perm := λ _ n, reverse_Permutation (seq 0 n) |}.

(** A pool whose tasks complete in the order of submission. *)
Definition in_order : Pool :=
  {| completion_order := λ n, seq 0 n;
     completion_order_perm := λ n, reflexivity (seq 0 n) |}.

Definition quoted (s : string) : string :=
  String (ascii_of_nat 34) (s +:+ String (ascii_of_nat 34) EmptyString).

(** JSON text of a list of strings that need no escaping. *)
Definition sample_json_dumps (xs : list string) : string :=
  "[" +:+ String.concat ", " (quoted <$> xs) +:+ "]".

(** A model whose vector holds the lengths of the words. *)
Definition word_lengths : embedding nat :=
  {| compute_sentence_vector := λ sentence,
       Return (Some (String.length <$> sentence)) |}.

(** A model that knows no word: it returns [None] for every sentence. *)
Definition knows_no_word : embedding nat :=
  {| compute_sentence_vector := λ _, Return None |}.

(** A model whose lookups hit a locked database. *)
Definition locked : embedding nat :=
  {| compute_sentence_vector := λ _, Raise OperationalError |}.

Definition sample_article : article :=
  ("a1", Some "COVID-19 spreads fast.", None, Some "It is. B 5. The cats of 2020.").

Definition empty_store : world :=
  {| db_is_file := true; db_articles := []; db_tables := ∅; trace := [] |}.

Definition sample_store : world :=
  {| db_is_file := true; db_articles := [sample_article];
     db_tables := ∅; trace := [] |}.

(** ** What lines 57-66 do to one sentence *)

(** The token list that lines 57-66 compute for the raw sentence [raw]: each
    of these lines is a comprehension over the sentences, so the value of
    [sentences] at line 66 holds this list at the position of [raw]. *)
Definition sentence_tokens (K : nltk) (stem_words remove_num : bool)
    (raw : string) : list string :=
  let sentence := filter_stopwords K (tokenize K (lower raw)) in
  let sentence := if stem_words then do_stemming K sentence else sentence in
  if remove_num then remove_numeric_words sentence else sentence.

(** ** Bookkeeping for the statements about the worker *)

(** [acc] put in front of the rows that a step returns. *)
Definition prepend `{Shuffler} {R : Type} (acc : list R)
    (r : result (list R) * rng) : result (list R) * rng :=
  match r with
  | (Return rows, g) => (Return (acc ++ rows), g)
  | (Raise e, g) => (Raise e, g)
  end.

(** The most rows one section of an article can yield: one per normalized
    sentence, and at most 20 for the body (line 109). *)
Definition section_rows_bound (K : nltk) (stem_words remove_num : bool)
    (section_data : string * option string) : nat :=
  match section_data.2 with
  | None => 0
  | Some data =>
      let n := length (preprocess_text K data stem_words remove_num).1 in
      if decide (section_data.1 = "body") then 20 `min` n else n
  end.

Definition article_rows_bound (K : nltk) (stem_words remove_num : bool)
    (article : article) : nat :=
  sum_list (section_rows_bound K stem_words remove_num
              <$> zip ["title"; "abstract"; "body"]
                      [article.1.1.2; article.1.2; article.2]).

(** Where a row comes from: an article of the batch, one of its sections
    with a text, and a pair of the normalized and the raw list that
    [preprocess_text] returns for that text, taken at the same position;
    [vector] is what lines 114-120 compute for the tokens of the pair. *)
Definition row_origin `{Shuffler} (K : nltk) {num : Type} (str : num → string)
    (json_dumps : list string → string) (batch : list article)
    (embedding_model : option (embedding num)) (stem_words remove_num : bool)
    (r : row) : Prop :=
  ∃ article_id title abstract body section data pp_sentence raw_sentence vector,
    (article_id, title, abstract, body) ∈ batch ∧
    (section, Some data)
      ∈ zip ["title"; "abstract"; "body"] [title; abstract; body] ∧
    (pp_sentence, raw_sentence)
      ∈ zip (preprocess_text K data stem_words remove_num).1
            (preprocess_text K data stem_words remove_num).2 ∧
    pp_sentence ≠ [] ∧
    sentence_vector str json_dumps embedding_model pp_sentence = Return vector ∧
    r = [Some article_id; Some section; Some raw_sentence;
         Some (json_dumps pp_sentence); vector].
(** * Properties of the normalizer *)

Example regexp_tokenize_ex :
  regexp_tokenize "covid-19 spreads fast." = ["covid"; "19"; "spreads"; "fast"].
Proof. reflexivity. Qed.

Example preprocess_text_ex1 :
  preprocess_text sample_nltk "COVID-19 spreads fast." false true
  = ([["covid"; "spreads"; "fast"]], ["COVID-19 spreads fast."]).
Proof. vm_compute. reflexivity. Qed.

Example preprocess_text_ex2 :
  preprocess_text sample_nltk "It is. The cats of 2020." true false
  = ([["cat"; "2020"]], ["It is."; "The cats of 2020."]).
Proof. vm_compute. reflexivity. Qed.

Section NormalizerFacts.
Context (K : nltk).
Implicit Types (text : string) (sentence : list string) (word : string).

Lemma preprocess_text_unfold text stem_words remove_num :
  preprocess_text K text stem_words remove_num
  = ((λ sentence, filter (λ word, 1 < String.length word) sentence)
       <$> filter (λ sentence, sentence ≠ [])
             (sentences_before_filter K text stem_words remove_num),
     sent_tokenize K text).
Proof. reflexivity. Qed.

Lemma preprocess_text_raw text stem_words remove_num :
  (preprocess_text K text stem_words remove_num).2 = sent_tokenize K text.
Proof. reflexivity. Qed.

Lemma length_sentences_before_filter text stem_words remove_num :
  length (sentences_before_filter K text stem_words remove_num)
  = length (sent_tokenize K text).
Proof.
  unfold sentences_before_filter.
  destruct stem_words, remove_num; by rewrite !length_fmap.
Qed.

(** The two returned lists have the same length exactly when no sentence
    is empty at line 66. *)
Lemma preprocess_text_length_eq text stem_words remove_num :
  length (preprocess_text K text stem_words remove_num).1
  = length (preprocess_text K text stem_words remove_num).2
  ↔ Forall (λ sentence, sentence ≠ [])
      (sentences_before_filter K text stem_words remove_num).
Proof.
  rewrite preprocess_text_unfold. simpl.
  rewrite length_fmap, <- (length_sentences_before_filter _ stem_words remove_num).
  generalize (sentences_before_filter K text stem_words remove_num).
  intros l. induction l as [| s l IH]; [by split |].
  rewrite filter_cons, Forall_cons.
  pose proof (length_filter (λ sentence : list string, sentence ≠ []) l).
  destruct (decide (s ≠ [])); simpl; [rewrite <- IH |]; split.
  - intros [=]. done.
  - intros [_ ->]. done.
  - lia.
  - intros [? _]. done.
Qed.

(** The normalized list is never longer than the raw one. *)
Lemma preprocess_text_length_le text stem_words remove_num :
  length (preprocess_text K text stem_words remove_num).1
  ≤ length (preprocess_text K text stem_words remove_num).2.
Proof.
  rewrite preprocess_text_unfold. simpl.
  rewrite length_fmap, <- (length_sentences_before_filter _ stem_words remove_num).
  apply length_filter.
Qed.

(** With [remove_num] set, every word that reaches the last comprehension
    has passed [remove_numeric_words]. *)
Lemma sentences_before_filter_letters text stem_words sentence word :
  sentence ∈ sentences_before_filter K text stem_words true →
  word ∈ sentence → letter_pattern_match word = true.
Proof.
  unfold sentences_before_filter.
  intros Hs Hw. apply list_elem_of_fmap in Hs as (s0 & -> & _).
  unfold remove_numeric_words in Hw.
  by apply list_elem_of_filter in Hw as [? _].
Qed.
End NormalizerFacts.

Lemma is_lower_alpha c : is_lower c = true → is_alpha c = true.
Proof. unfold is_alpha. by intros ->. Qed.

(** C5. Every token of every normalized sentence returned by
    [preprocess_text] has at least two characters, and when [remove_num] is
    set its first character is a letter (indeed a lower-case one), so no
    returned token starts with a non-alphabetic character. *)
Theorem preprocess_text_tokens (K : nltk) (text : string)
    (stem_words remove_num : bool) (sentence : list string) (word : string) :
  sentence ∈ (preprocess_text K text stem_words remove_num).1 →
  word ∈ sentence →
  2 ≤ String.length word ∧
  (remove_num = true →
   ∃ c rest, word = String c rest ∧ is_lower c = true ∧ is_alpha c = true).
Proof.
  rewrite preprocess_text_unfold. simpl. intros Hs Hw.
  apply list_elem_of_fmap in Hs as (s0 & -> & Hs0).
  apply list_elem_of_filter in Hs0 as [_ Hs0].
  apply list_elem_of_filter in Hw as [Hlen Hw].
  split; [lia |]. intros ->.
  pose proof (sentences_before_filter_letters K _ _ _ _ Hs0 Hw) as Hm.
  destruct word as [| c rest]; [discriminate |].
  exists c, rest. simpl in Hm. auto using is_lower_alpha.
Qed.

Lemma preprocess_text_tokens_witness :
  2 ≤ String.length "covid" ∧
  (true = true →
   ∃ c rest, "covid" = String c rest ∧ is_lower c = true ∧ is_alpha c = true).
Proof.
  apply (preprocess_text_tokens sample_nltk "COVID-19 spreads fast."
           false true ["covid"; "spreads"; "fast"] "covid").
  - vm_compute. left.
  - left.
Defined.


(** C1, at a failing input. The first sentence consists of stop words only:
    its token list is dropped by line 69 but its raw text stays in
    [sentences_raw]. The two returned lists differ in length, and position 0
    of the normalized list holds the tokens of raw sentence 1. *)
Theorem preprocess_text_misaligned :
  let '(normalized, raw) :=
    preprocess_text sample_nltk "It is. Covid spreads fast." false false in
  normalized = [["covid"; "spreads"; "fast"]] ∧
  raw = ["It is."; "Covid spreads fast."] ∧
  length normalized ≠ length raw ∧
  zip normalized raw = [(["covid"; "spreads"; "fast"], "It is.")].
Proof. vm_compute. split_and!; [done | done | lia | done]. Qed.




(** * Properties of the chunking *)

Example split_into_chunks_ex :
  split_into_chunks [1; 2; 3; 4; 5; 6; 7] 3 = Return [[1; 2; 3]; [4; 5; 6]; [7]].
Proof. reflexivity. Qed.

Example split_into_chunks_zero : split_into_chunks [1; 2] 0 = Raise ValueError.
Proof. reflexivity. Qed.

Example split_into_chunks_nil : split_into_chunks (@nil nat) 1000 = Return [].
Proof. reflexivity. Qed.

Section Chunking.
Context {A : Type} (iterable : list A) (c : nat) (Hc : 1 ≤ c).

Lemma range_from_ge fuel ndx stop :
  stop ≤ ndx → range_from fuel ndx stop c = [].
Proof using Type.
  clear Hc. intros. destruct fuel; simpl; [done |]. case_decide; [lia | done].
Qed.

Lemma ceil_div_step d : 0 < d → (d + c - 1) / c = S ((d - c + c - 1) / c).
Proof using Hc.
  intros Hd. destruct (decide (d ≤ c)) as [Hle | Hgt].
  - replace (d - c) with 0 by lia.
    rewrite (Nat.div_small (0 + c - 1) c) by lia.
    symmetry. apply (Nat.div_unique _ _ 1 (d - 1)); lia.
  - replace (d + c - 1) with ((d - c + c - 1) + 1 * c) by lia.
    rewrite Nat.div_add by lia. lia.
Qed.

(** The loop visits the multiples of [c] below [stop], and its fuel is
    enough to visit all of them. *)
Lemma range_from_closed fuel ndx stop :
  stop - ndx ≤ fuel →
  range_from fuel ndx stop c
  = (λ k, ndx + k * c) <$> seq 0 ((stop - ndx + c - 1) / c).
Proof using Hc.
  revert ndx. induction fuel as [| fuel IH]; intros ndx Hfuel.
  - replace (stop - ndx) with 0 by lia.
    by rewrite (Nat.div_small (0 + c - 1) c) by lia.
  - simpl. case_decide as Hlt.
    + rewrite (ceil_div_step (stop - ndx)) by lia.
      rewrite IH by lia. simpl. f_equal; [lia |].
      replace (stop - ndx - c) with (stop - (ndx + c)) by lia.
      rewrite <- fmap_S_seq, <- list_fmap_compose.
      apply list_fmap_ext. intros _ k _. simpl. lia.
    + replace (stop - ndx) with 0 by lia.
      by rewrite (Nat.div_small (0 + c - 1) c) by lia.
Qed.

Lemma chunk_end_min ndx total_size :
  chunk_end ndx (Z.of_nat c) total_size = Nat.min (ndx + c) total_size.
Proof using Type. clear Hc. unfold chunk_end. lia. Qed.

(** Glueing the slices back together, from index [ndx] on. *)
Lemma concat_slices fuel ndx :
  length iterable - ndx ≤ fuel →
  concat ((λ ndx, slice iterable ndx
                    (chunk_end ndx (Z.of_nat c) (length iterable)))
            <$> range_from fuel ndx (length iterable) c)
  = drop ndx iterable.
Proof using Hc.
  revert ndx. induction fuel as [| fuel IH]; intros ndx Hfuel; simpl.
  - by rewrite drop_ge by lia.
  - case_decide as Hlt; simpl.
    + rewrite IH by lia. unfold slice. rewrite chunk_end_min.
      destruct (decide (ndx + c ≤ length iterable)) as [Hle | Hgt].
      * replace (Nat.min (ndx + c) (length iterable) - ndx) with c by lia.
        by rewrite <- drop_drop, take_drop.
      * rewrite (drop_ge iterable (ndx + c)) by lia.
        rewrite take_ge; [by rewrite app_nil_r |].
        rewrite length_drop. lia.
    + by rewrite drop_ge by lia.
Qed.
End Chunking.

(** C7. For a chunk size of at least 1, [split_into_chunks] returns a list
    of chunks whose concatenation is the input; chunk [i] is the contiguous
    run of the input that starts at index [i * C]; there are ceil(N/C)
    chunks; no chunk is empty or longer than [C], and every chunk but the
    last has exactly [C] elements. *)
Theorem split_into_chunks_partition {A} (iterable : list A) (chunks_size : Z) :
  (1 ≤ chunks_size)%Z →
  let C := Z.to_nat chunks_size in
  let N := length iterable in
  ∃ batches,
    split_into_chunks iterable chunks_size = Return batches ∧
    concat batches = iterable ∧
    length batches = (N + C - 1) / C ∧
    N ≤ length batches * C < N + C ∧
    ∀ i batch, batches !! i = Some batch →
      batch = take C (drop (i * C) iterable) ∧
      1 ≤ length batch ≤ C ∧
      (i + 1 < length batches → length batch = C).
Proof.
  intros HC C N.
  assert (Hc : 1 ≤ C) by (unfold C; lia).
  assert (HCZ : chunks_size = Z.of_nat C) by (unfold C; lia).
  unfold split_into_chunks, range0.
  destruct (decide (chunks_size = 0)%Z) as [? | _]; [lia |].
  destruct (decide (chunks_size < 0)%Z) as [? | _]; [lia |].
  simpl. fold C N. eexists. split; [reflexivity |].
  assert (Hk : N ≤ (N + C - 1) / C * C < N + C).
  { pose proof (Nat.div_mod_eq (N + C - 1) C) as Hdm.
    pose proof (Nat.mod_upper_bound (N + C - 1) C) as Hm. nia. }
  split.
  { rewrite HCZ. unfold N. rewrite (concat_slices _ _ Hc) by lia. done. }
  rewrite (range_from_closed _ Hc) by lia.
  rewrite !length_fmap, length_seq, Nat.sub_0_r.
  split; [done |]. split; [done |].
  intros i batch Hi.
  apply list_lookup_fmap_Some in Hi as (ndx & -> & Hi).
  apply list_lookup_fmap_Some in Hi as (k & -> & Hi).
  apply lookup_seq in Hi as [-> Hlt]. simpl.
  unfold slice. rewrite HCZ, chunk_end_min. fold N.
  assert (Hi : i * C < N) by nia.
  destruct (decide (i * C + C ≤ N)) as [Hle | Hgt].
  - replace (Nat.min (i * C + C) N - i * C) with C by lia.
    split; [done |]. rewrite length_take, length_drop. fold N. lia.
  - replace (Nat.min (i * C + C) N - i * C) with (N - i * C) by lia.
    rewrite !take_ge by (rewrite length_drop; fold N; lia).
    split; [done |]. rewrite length_drop. fold N.
    split; [lia |]. intros Hnext. nia.
Qed.

Lemma split_into_chunks_partition_witness :
  ∃ batches,
    split_into_chunks [1; 2; 3; 4; 5; 6; 7] 3 = Return batches ∧
    concat batches = [1; 2; 3; 4; 5; 6; 7] ∧
    length batches = (7 + 3 - 1) / 3 ∧
    7 ≤ length batches * 3 < 7 + 3 ∧
    ∀ i batch, batches !! i = Some batch →
      batch = take 3 (drop (i * 3) [1; 2; 3; 4; 5; 6; 7]) ∧
      1 ≤ length batch ≤ 3 ∧
      (i + 1 < length batches → length batch = 3).
Proof.
  apply (split_into_chunks_partition [1; 2; 3; 4; 5; 6; 7] 3). lia.
Defined.

(** * Properties of the section sampler *)

Section Lookups.
Context {A : Type}.
Implicit Types (x : list A) (order : list nat).

(** Reading a list at valid positions yields one element per position. *)
Lemma omap_lookup_Forall2 x order :
  (∀ i, i ∈ order → i < length x) →
  Forall2 (λ i a, x !! i = Some a) order (omap (λ i, x !! i) order).
Proof.
  induction order as [| i order IH]; intros Hvalid; [constructor |].
  destruct (lookup_lt_is_Some_2 x i) as [a Ha]; [apply Hvalid; left |].
  change (omap (λ i, x !! i) (i :: order))
    with (match x !! i with
          | Some a => a :: omap (λ i, x !! i) order
          | None => omap (λ i, x !! i) order
          end).
  rewrite Ha. constructor; [done |].
  apply IH. intros j Hj. apply Hvalid. by right.
Qed.

(** Reading a list at all of its positions, in order, yields the list. *)
Lemma omap_lookup_seq_app pre x :
  omap (λ i, (pre ++ x) !! i) (seq (length pre) (length x)) = x.
Proof.
  revert pre. induction x as [| a x IH]; intros pre; [done |].
  change (seq (length pre) (length (a :: x)))
    with (length pre :: seq (S (length pre)) (length x)).
  change (omap (λ i, (pre ++ a :: x) !! i)
            (length pre :: seq (S (length pre)) (length x)))
    with (match (pre ++ a :: x) !! length pre with
          | Some b => b :: omap (λ i, (pre ++ a :: x) !! i)
                             (seq (S (length pre)) (length x))
          | None => omap (λ i, (pre ++ a :: x) !! i)
                      (seq (S (length pre)) (length x))
          end).
  rewrite list_lookup_middle by done. f_equal.
  rewrite (cons_middle a pre x), app_assoc.
  replace (S (length pre)) with (length (pre ++ [a]))
    by (rewrite length_app; simpl; lia).
  apply IH.
Qed.

Lemma omap_lookup_seq x : omap (λ i, x !! i) (seq 0 (length x)) = x.
Proof. apply (omap_lookup_seq_app [] x). Qed.
End Lookups.

Section Sampler.
Context `{Shuffler}.

Lemma shuffle_order_valid g n i : i ∈ (shuffle_order g n).1 → i < n.
Proof.
  rewrite (shuffle_order_perm g n). intros Hi.
  apply list_elem_of_lookup in Hi as [k Hk].
  apply lookup_seq in Hk. lia.
Qed.

Lemma shuffle_order_NoDup g n : NoDup (shuffle_order g n).1.
Proof. rewrite (shuffle_order_perm g n). apply NoDup_seq. Qed.

Lemma shuffle_order_length g n : length (shuffle_order g n).1 = n.
Proof. by rewrite (shuffle_order_perm g n), length_seq. Qed.

(** [shuffle] rearranges its argument and loses nothing. *)
Lemma shuffle_Permutation {A} g (x : list A) : (shuffle g x).1 ≡ₚ x.
Proof.
  unfold shuffle.
  pose proof (shuffle_order_perm g (length x)) as Hperm.
  destruct (shuffle_order g (length x)) as [order g']. simpl in *.
  rewrite (omap_Permutation _ _ _ Hperm). by rewrite omap_lookup_seq.
Qed.
End Sampler.

(** C3 as stated fails for a count of at most 20: the pairs are shuffled
    whatever their number, so they need not come back in the order in which
    they went in. With the generator that lays positions out backwards, two
    pairs come back swapped. *)
Lemma sample_body_section_reorders :
  sample_body_section (H := backwards) tt [["aa"]; ["bb"]] ["Aa."; "Bb."]
  = (Return ([["bb"]; ["aa"]], ["Bb."; "Aa."]), tt) ∧
  sample_body_section (H := backwards) tt [["aa"]; ["bb"]] ["Aa."; "Bb."]
  ≠ (Return ([["aa"]; ["bb"]], ["Aa."; "Bb."]), tt).
Proof. split; [reflexivity | discriminate]. Qed.

(** C3, amended. For index-aligned, non-empty sequences of [n] sentences the
    sampler returns the pairs found at [min 20 n] distinct positions of the
    input, in the order the shuffle gave them: exactly 20 pairs when
    [n > 20], each one a pair of the input and no position taken twice; and
    when [n <= 20] all the pairs, as a permutation of the input. *)
Theorem sample_body_section_sample `{Shuffler} (g : rng)
    (pp_sentences : list (list string)) (sentences_raw : list string) :
  length pp_sentences = length sentences_raw →
  0 < length pp_sentences →
  ∃ order pp_kept raw_kept g',
    sample_body_section g pp_sentences sentences_raw
      = (Return (pp_kept, raw_kept), g') ∧
    NoDup order ∧
    (∀ i, i ∈ order → i < length pp_sentences) ∧
    length order = 20 `min` length pp_sentences ∧
    length pp_kept = length order ∧
    length raw_kept = length order ∧
    (∀ k i, order !! k = Some i →
       pp_kept !! k = pp_sentences !! i ∧ raw_kept !! k = sentences_raw !! i) ∧
    (length pp_sentences ≤ 20 →
       zip pp_kept raw_kept ≡ₚ zip pp_sentences sentences_raw).
Proof.
  intros Hlen Hpos. unfold sample_body_section.
  set (temp_list := zip pp_sentences sentences_raw).
  assert (Hn : length temp_list = length pp_sentences).
  { unfold temp_list. rewrite length_zip. lia. }
  pose proof (shuffle_Permutation g temp_list) as Hperm.
  unfold shuffle in *. rewrite Hn in *.
  pose proof (shuffle_order_valid g (length pp_sentences)) as Hvalid.
  pose proof (shuffle_order_NoDup g (length pp_sentences)) as Hnodup.
  pose proof (shuffle_order_length g (length pp_sentences)) as Hlength.
  destruct (shuffle_order g (length pp_sentences)) as [order g'].
  simpl in Hperm, Hvalid, Hnodup, Hlength.
  assert (Hread : Forall2 (λ i a, temp_list !! i = Some a) (take 20 order)
                    (take 20 (omap (λ i, temp_list !! i) order))).
  { apply Forall2_take, omap_lookup_Forall2. intros i Hi.
    rewrite Hn. by apply Hvalid. }
  set (kept := take 20 (omap (λ i, temp_list !! i) order)) in *.
  assert (Hkept : length kept = 20 `min` length pp_sentences).
  { rewrite <- (Forall2_length _ _ _ Hread), length_take. lia. }
  assert (Hall : length pp_sentences ≤ 20 → kept ≡ₚ temp_list).
  { intros Hsmall. unfold kept. rewrite take_ge; [done |].
    rewrite (Permutation_length Hperm). lia. }
  clearbody kept.
  exists (take 20 order), kept.*1, kept.*2, g'.
  split.
  { destruct kept as [| pair kept']; [cbn [length] in Hkept; lia | done]. }
  split; [eapply sublist_NoDup; [done | apply sublist_take] |].
  split.
  { intros i Hi. apply Hvalid.
    eapply elem_of_sublist; [done | apply sublist_take]. }
  split; [rewrite length_take; lia |].
  rewrite !length_fmap, <- (Forall2_length _ _ _ Hread).
  split; [done |]. split; [done |].
  split.
  - intros k i Hk.
    destruct (Forall2_lookup_l _ _ _ _ _ Hread Hk) as ([pp raw] & Hpair & Hi).
    apply lookup_zip_Some in Hi as [Hpp Hraw].
    rewrite !list_lookup_fmap, Hpair, Hpp, Hraw. done.
  - intros Hsmall. rewrite zip_fst_snd. by apply Hall.
Qed.

Lemma sample_body_section_sample_witness :
  ∃ order pp_kept raw_kept g',
    sample_body_section (H := backwards) tt [["aa"]; ["bb"]] ["Aa."; "Bb."]
      = (Return (pp_kept, raw_kept), g') ∧
    NoDup order ∧
    (∀ i, i ∈ order → i < length [["aa"]; ["bb"]]) ∧
    length order = 20 `min` length [["aa"]; ["bb"]] ∧
    length pp_kept = length order ∧
    length raw_kept = length order ∧
    (∀ k i, order !! k = Some i →
       pp_kept !! k = [["aa"]; ["bb"]] !! i ∧
       raw_kept !! k = ["Aa."; "Bb."] !! i) ∧
    (length [["aa"]; ["bb"]] ≤ 20 →
       zip pp_kept raw_kept ≡ₚ zip [["aa"]; ["bb"]] ["Aa."; "Bb."]).
Proof.
  apply (sample_body_section_sample (H := backwards) tt
           [["aa"]; ["bb"]] ["Aa."; "Bb."]).
  - reflexivity.
  - simpl. lia.
Defined.

(** * Properties of the batch worker *)

Section Loops.
Context `{Shuffler} {X S : Type}.
Implicit Types (body : X → S → rng → result S * rng) (xs : list X).

(** A property of the accumulated value that every iteration keeps holds
    when the loop ends normally. *)
Lemma for_each_inv (P : S → Prop) body xs s g s' g' :
  (∀ x s g s' g', x ∈ xs → P s → body x s g = (Return s', g') → P s') →
  P s → for_each body xs s g = (Return s', g') → P s'.
Proof.
  revert s g. induction xs as [| x xs IH]; intros s g Hbody Hs Hrun.
  - simpl in Hrun. by inversion Hrun; subst.
  - simpl in Hrun. destruct (body x s g) as [[s1 | e] g1] eqn:Hx; [| done].
    eapply IH; [| | exact Hrun].
    + intros; eapply Hbody; [by right | done..].
    + eapply Hbody; [by left | done..].
Qed.

(** An exception in the first iteration ends the loop at once. *)
Lemma for_each_raise body x xs s g e g' :
  body x s g = (Raise e, g') → for_each body (x :: xs) s g = (Raise e, g').
Proof. intros Hx. simpl. by rewrite Hx. Qed.
End Loops.

Section WorkerFacts.
Context `{Shuffler} (K : nltk) {num : Type} (str : num → string).
Context (json_dumps : list string → string).
Context (embedding_model : option (embedding num)).

Local Abbreviation row_ok := (row_shape json_dumps embedding_model).

Lemma sentence_vector_None pp_sentence vector :
  sentence_vector str json_dumps embedding_model pp_sentence = Return vector →
  vector = None ↔ embedding_model = None.
Proof.
  unfold sentence_vector. destruct embedding_model as [model |].
  - destruct (compute_sentence_vector model pp_sentence) as [[v |] | e];
      simpl; intros Hv; inversion Hv; subst; split; discriminate.
  - intros Hv. by inversion Hv.
Qed.

(** A sentence whose vector cannot be computed ends the loop over the
    sentences with the exception of the computation: line 115 is outside
    the [try] block. *)
Lemma sentence_step_vector_failure article_id section pp_sentence
    raw_sentence articles_rows g e :
  pp_sentence ≠ [] →
  sentence_vector str json_dumps embedding_model pp_sentence = Raise e →
  sentence_step str json_dumps embedding_model article_id section
    (pp_sentence, raw_sentence) articles_rows g = (Raise e, g).
Proof.
  intros Hne Hv. unfold sentence_step.
  destruct (decide (pp_sentence ≠ [])); [| done]. by rewrite Hv.
Qed.

Lemma sentence_step_rows article_id section pair articles_rows g rows g' :
  section ∈ ["title"; "abstract"; "body"] →
  Forall row_ok articles_rows →
  sentence_step str json_dumps embedding_model article_id section
    pair articles_rows g = (Return rows, g') →
  Forall row_ok rows.
Proof.
  intros Hsection Hrows. unfold sentence_step.
  destruct pair as [pp_sentence raw_sentence].
  destruct (decide (pp_sentence ≠ [])) as [Hne | _].
  - destruct (sentence_vector str json_dumps embedding_model pp_sentence)
      as [vector | e] eqn:Hv; [| done].
    simpl. intros Hstep. inversion Hstep; subst.
    apply Forall_app. split; [done |]. apply Forall_singleton.
    unfold row_shape.
    exists article_id, section, raw_sentence, pp_sentence, vector.
    eauto using sentence_vector_None.
  - intros Hstep. by inversion Hstep; subst.
Qed.

Lemma section_step_rows stem_words remove_num article_id section data
    articles_rows g rows g' :
  section ∈ ["title"; "abstract"; "body"] →
  Forall row_ok articles_rows →
  section_step K str json_dumps embedding_model stem_words remove_num
    article_id (section, data) articles_rows g = (Return rows, g') →
  Forall row_ok rows.
Proof.
  intros Hsection Hrows. unfold section_step.
  destruct data as [data |]; [| by intros [= <- _]].
  destruct (preprocess_text K data stem_words remove_num)
    as [pp_sentences sentences_raw].
  destruct (decide (0 < length pp_sentences)); [| by intros [= <- _]].
  destruct (if decide (section = "body")
            then sample_body_section g pp_sentences sentences_raw
            else (Return (pp_sentences, sentences_raw), g))
    as [[[pp_kept raw_kept] | e] g1]; [| done].
  apply for_each_inv; [| done].
  intros pair s g2 s' g3 _. by apply sentence_step_rows.
Qed.

Lemma article_step_rows stem_words remove_num article articles_rows g
    rows g' :
  Forall row_ok articles_rows →
  article_step K str json_dumps embedding_model stem_words remove_num
    article articles_rows g = (Return rows, g') →
  Forall row_ok rows.
Proof.
  intros Hrows. unfold article_step.
  destruct article as [[[article_id title] abstract] body].
  apply for_each_inv; [| done].
  intros [section data] s g2 s' g3 Hin. apply section_step_rows.
  apply (elem_of_zip_l _ _ _ _ Hin).
Qed.

Lemma body_rows batch stem_words remove_num g rows g' :
  pre_process_batch_of_articles_body K str json_dumps
    (batch, embedding_model, stem_words, remove_num) g = (Return rows, g') →
  Forall row_ok rows.
Proof.
  unfold pre_process_batch_of_articles_body.
  apply for_each_inv; [| by constructor].
  intros article s g2 s' g3 _. apply article_step_rows.
Qed.
End WorkerFacts.

Section RetryFacts.
Context {St A : Type} (exception : exn) (delay : Q) (f : St → result A * St).

(** A decorated call returns a value only if some call of the function
    returned it. *)
Lemma retry_Return tries s a s' events :
  retry exception tries delay f s = (Return a, s', events) →
  ∃ s0, f s0 = (Return a, s').
Proof.
  revert s events. induction tries as [| n IH]; intros s events; simpl;
    destruct (f s) as [[a0 | e] s1] eqn:Hf.
  - intros [= -> -> _]. eauto.
  - by case_decide.
  - intros [= -> -> _]. eauto.
  - case_decide; [| done]. destruct n as [| m]; [done |].
    destruct (retry exception (S m) delay f s1) as [[r s2] evs] eqn:Hrec.
    intros [= -> -> _]. eauto.
Qed.


End RetryFacts.

(** C9. Every row returned by the decorated worker has five entries: the
    article id, a section name among "title", "abstract" and "body", the raw
    sentence, the JSON text of a non-empty token list, and an embedding that
    is [None] exactly when no embedding model was supplied. *)
Theorem worker_rows `{Shuffler} (K : nltk) {num : Type} (str : num → string)
    (json_dumps : list string → string) (batch : list article)
    (embedding_model : option (embedding num)) (stem_words remove_num : bool)
    (g g' : rng) (rows : list row) (calls : list retry_event) (r : row) :
  pre_process_batch_of_articles K str json_dumps
    (batch, embedding_model, stem_words, remove_num) g
    = (Return rows, g', calls) →
  r ∈ rows →
  length r = 5 ∧
  ∃ article_id section raw_sentence pp_sentence vector,
    r = [Some article_id; Some section; Some raw_sentence;
         Some (json_dumps pp_sentence); vector] ∧
    section ∈ ["title"; "abstract"; "body"] ∧
    pp_sentence ≠ [] ∧
    (vector = None ↔ embedding_model = None).
Proof.
  unfold pre_process_batch_of_articles. intros Hcall Hr.
  apply retry_Return in Hcall as [g0 Hbody].
  apply body_rows in Hbody.
  rewrite Forall_forall in Hbody. specialize (Hbody r Hr).
  split; [| exact Hbody].
  destruct Hbody as (? & ? & ? & ? & ? & -> & _). done.
Qed.

Lemma worker_rows_witness :
  length [Some "a1"; Some "title"; Some "COVID-19 spreads fast.";
          Some (sample_json_dumps ["covid"; "spreads"; "fast"]);
          Some (sample_json_dumps ["5"; "7"; "4"])] = 5 ∧
  ∃ article_id section raw_sentence pp_sentence vector,
    [Some "a1"; Some "title"; Some "COVID-19 spreads fast.";
     Some (sample_json_dumps ["covid"; "spreads"; "fast"]);
     Some (sample_json_dumps ["5"; "7"; "4"])]
    = [Some article_id; Some section; Some raw_sentence;
       Some (sample_json_dumps pp_sentence); vector] ∧
    section ∈ ["title"; "abstract"; "body"] ∧
    pp_sentence ≠ [] ∧
    (vector = None ↔ Some word_lengths = None).
Proof.
  eapply (worker_rows (H := backwards) sample_nltk pretty sample_json_dumps
            [sample_article] (Some word_lengths) false true tt).
  - vm_compute. reflexivity.
  - left.
Defined.

(** C2, at a failing input. The model returns no vector for the only
    sentence of the batch: [map(str, None)] raises [TypeError] at line 115,
    before the [try] block of line 121, so the worker raises instead of
    skipping the sentence. When the computation raises
    [sqlite3.OperationalError], the decorator calls the worker, and with it
    the computation, five times. *)
Theorem vectorization_failure_aborts_batch :
  pre_process_batch_of_articles (H := backwards) sample_nltk pretty
    sample_json_dumps
    ([("a1", Some "COVID-19 spreads fast.", None, None)],
     Some knows_no_word, false, true) tt
  = (Raise TypeError, tt, [Called (Some TypeError)]) ∧
  pre_process_batch_of_articles (H := backwards) sample_nltk pretty
    sample_json_dumps
    ([("a1", Some "COVID-19 spreads fast.", None, None)],
     Some locked, false, true) tt
  = (Raise OperationalError, tt,
     [Called (Some OperationalError); Slept 2;
      Called (Some OperationalError); Slept 2;
      Called (Some OperationalError); Slept 2;
      Called (Some OperationalError); Slept 2;
      Called (Some OperationalError)]).
Proof. split; vm_compute; reflexivity. Qed.


(** * Properties of the driver *)

Example driver_full_run :
  trace (pre_process_and_vectorize_texts (H := backwards) (H0 := in_order)
           sample_nltk pretty sample_json_dumps (Some word_lengths)
           "articles_database.sqlite" true false true 1000 tt sample_store).2
  = [Loaded 1; Printed (FilesToPreProcess 1 1 1);
     Worker [sample_article] [Called None];
     Printed (TookToPreProcess 1); Paused (1 # 2);
     Inserted "sentences" 2;
     Printed (TookToInsert 2 "articles_database.sqlite")].
Proof. vm_compute. reflexivity. Qed.

Example driver_store_missing :
  (pre_process_and_vectorize_texts (H := backwards) (H0 := in_order)
     sample_nltk pretty sample_json_dumps (Some word_lengths)
     "articles_database.sqlite" false false true 1000 tt
     (World false [] ∅ [])).1.1
  = Raise AssertionError.
Proof. reflexivity. Qed.

(** C8. When the store exists and [first_launch] is [False], the driver
    returns normally after printing that the store will be used: the print
    is the only thing it does, so no record is loaded, no worker runs and
    nothing is inserted, the tables and the generator are as before, and a
    second such run leaves the tables as they were as well. *)
Theorem driver_reuses_store `{Shuffler} `{Pool} (K : nltk) {num : Type}
    (str : num → string) (json_dumps : list string → string)
    (embedding_model : option (embedding num)) (db_path : string)
    (stem_words remove_num : bool) (batch_size : Z) (g : rng) (w : world) :
  db_is_file w = true →
  let run := pre_process_and_vectorize_texts K str json_dumps embedding_model
               db_path false stem_words remove_num batch_size in
  run g w = (Return (), g, emit (Printed (DbWillBeUsed db_path)) w) ∧
  trace (run g w).2 = trace w ++ [Printed (DbWillBeUsed db_path)] ∧
  db_tables (run g w).2 = db_tables w ∧
  db_articles (run g w).2 = db_articles w ∧
  db_tables (run (run g w).1.2 (run g w).2).2 = db_tables w.
Proof.
  intros Hfile run. unfold run, pre_process_and_vectorize_texts.
  rewrite Hfile. simpl. rewrite Hfile. done.
Qed.

Lemma driver_reuses_store_witness :
  let run := pre_process_and_vectorize_texts (H := backwards)
               (H0 := in_order) sample_nltk pretty sample_json_dumps
               (Some word_lengths) "articles_database.sqlite"
               false false true 1000 in
  run tt sample_store
  = (Return (), tt,
     emit (Printed (DbWillBeUsed "articles_database.sqlite")) sample_store) ∧
  trace (run tt sample_store).2
  = trace sample_store ++ [Printed (DbWillBeUsed "articles_database.sqlite")] ∧
  db_tables (run tt sample_store).2 = db_tables sample_store ∧
  db_articles (run tt sample_store).2 = db_articles sample_store ∧
  db_tables (run (run tt sample_store).1.2 (run tt sample_store).2).2
  = db_tables sample_store.
Proof.
  apply (driver_reuses_store (H := backwards) (H0 := in_order) sample_nltk
           pretty sample_json_dumps (Some word_lengths)
           "articles_database.sqlite" false true 1000 tt sample_store).
  reflexivity.
Defined.

(** C10 as stated fails for a batch size of 0: [range(0, 0, 0)] raises
    [ValueError] in [split_into_chunks], before the progress message is
    formatted. *)
Lemma zero_batch_size_raises_ValueError :
  pre_process_and_vectorize_texts (H := backwards) (H0 := in_order)
    sample_nltk pretty sample_json_dumps (Some word_lengths)
    "articles_database.sqlite" true false true 0 tt empty_store
  = (Raise ValueError, tt, emit (Loaded 0) empty_store) ∧
  (pre_process_and_vectorize_texts (H := backwards) (H0 := in_order)
     sample_nltk pretty sample_json_dumps (Some word_lengths)
     "articles_database.sqlite" true false true 0 tt empty_store).1.1
  ≠ Raise IndexError.
Proof. split; [reflexivity | discriminate]. Qed.

(** C10, amended. With [first_launch] [True], a source of zero articles and
    a batch size other than 0, the driver raises [IndexError]: the list of
    chunks is empty and the progress message reads its first element. All it
    has done by then is load the (zero) records: nothing is printed, no
    worker runs, nothing is inserted and the tables are as before. *)
Theorem driver_no_articles `{Shuffler} `{Pool} (K : nltk) {num : Type}
    (str : num → string) (json_dumps : list string → string)
    (embedding_model : option (embedding num)) (db_path : string)
    (stem_words remove_num : bool) (batch_size : Z) (g : rng) (w : world) :
  db_articles w = [] →
  batch_size ≠ 0%Z →
  let run := pre_process_and_vectorize_texts K str json_dumps embedding_model
               db_path true stem_words remove_num batch_size g w in
  run = (Raise IndexError, g, emit (Loaded 0) w) ∧
  trace run.2 = trace w ++ [Loaded 0] ∧
  db_tables run.2 = db_tables w.
Proof.
  intros Hnone Hsize run. unfold run, pre_process_and_vectorize_texts.
  unfold get_all_articles_data. rewrite Hnone.
  unfold split_into_chunks, range0. simpl.
  destruct (decide (batch_size = 0%Z)) as [? | _]; [done |].
  destruct (decide (batch_size < 0)%Z); done.
Qed.

Lemma driver_no_articles_witness :
  let run := pre_process_and_vectorize_texts (H := backwards)
               (H0 := in_order) sample_nltk pretty sample_json_dumps
               (Some word_lengths) "articles_database.sqlite"
               true false true 1000 tt empty_store in
  run = (Raise IndexError, tt, emit (Loaded 0) empty_store) ∧
  trace run.2 = trace empty_store ++ [Loaded 0] ∧
  db_tables run.2 = db_tables empty_store.
Proof.
  apply (driver_no_articles (H := backwards) (H0 := in_order) sample_nltk
           pretty sample_json_dumps (Some word_lengths)
           "articles_database.sqlite" false true 1000 tt empty_store).
  - reflexivity.
  - lia.
Defined.

(** * Further properties of the normalizer *)

Lemma sentences_before_filter_fmap (K : nltk) (text : string)
    (stem_words remove_num : bool) :
  sentences_before_filter K text stem_words remove_num
  = sentence_tokens K stem_words remove_num <$> sent_tokenize K text.
Proof.
  unfold sentences_before_filter, sentence_tokens.
  destruct stem_words, remove_num; rewrite <- ?list_fmap_compose;
    by apply list_fmap_ext.
Qed.

(** Filtering the images of a list is filtering the list. *)
Lemma filter_fmap {A B} (f : A → B) (P : B → Prop) `{!∀ y, Decision (P y)}
    (l : list A) :
  filter P (f <$> l) = f <$> filter (λ x, P (f x)) l.
Proof.
  induction l as [| a l IH]; [done |].
  rewrite fmap_cons, !filter_cons. simpl.
  destruct (decide (P (f a))); by rewrite IH.
Qed.

(** X1. Every token returned by [preprocess_text] comes from the text: it is
    a word that the tokenizer found in the lower-cased text of one of the raw
    sentences and that is not a stop word, replaced by its stem when
    [stem_words] is set. *)
Theorem preprocess_text_token_origin (K : nltk) (text : string)
    (stem_words remove_num : bool) (sentence : list string) (token : string) :
  sentence ∈ (preprocess_text K text stem_words remove_num).1 →
  token ∈ sentence →
  ∃ raw word,
    raw ∈ sent_tokenize K text ∧
    word ∈ tokenize K (lower raw) ∧
    (word ∉ stop_words K) ∧
    token = (if stem_words then stem K word else word).
Proof.
  rewrite preprocess_text_unfold, sentences_before_filter_fmap. simpl.
  intros Hs Ht.
  apply list_elem_of_fmap in Hs as (s0 & -> & Hs0).
  apply list_elem_of_filter in Hs0 as [_ Hs0].
  apply list_elem_of_fmap in Hs0 as (raw & -> & Hraw).
  apply list_elem_of_filter in Ht as [_ Ht].
  exists raw. unfold sentence_tokens in Ht.
  assert (Hstem : token ∈ (if stem_words
                           then do_stemming K (filter_stopwords K (tokenize K (lower raw)))
                           else filter_stopwords K (tokenize K (lower raw)))).
  { destruct remove_num; [| done].
    by apply list_elem_of_filter in Ht as [_ Ht]. }
  destruct stem_words.
  - apply list_elem_of_fmap in Hstem as (word & -> & Hword).
    apply list_elem_of_filter in Hword as [Hstop Hword]. eauto.
  - apply list_elem_of_filter in Hstem as [Hstop Hword]. eauto.
Qed.

Lemma preprocess_text_token_origin_witness :
  ∃ raw word,
    raw ∈ sent_tokenize sample_nltk "It is. The cats of 2020." ∧
    word ∈ tokenize sample_nltk (lower raw) ∧
    (word ∉ stop_words sample_nltk) ∧
    "cat" = (if true then stem sample_nltk word else word).
Proof.
  apply (preprocess_text_token_origin sample_nltk "It is. The cats of 2020."
           true false ["cat"; "2020"] "cat").
  - vm_compute. left.
  - left.
Defined.

(** X2. The normalized list returned by [preprocess_text] is aligned with
    the raw sentences that still have a token at line 66, in their original
    order, and not with the returned raw list: its entry at position [i] is
    the token list of the [i]-th such sentence without its one-character
    words, and these sentences are a sub-sequence of the returned raw
    list. *)
Theorem preprocess_text_alignment (K : nltk) (text : string)
    (stem_words remove_num : bool) :
  let kept := filter (λ raw, sentence_tokens K stem_words remove_num raw ≠ [])
                (sent_tokenize K text) in
  (preprocess_text K text stem_words remove_num).1
  = (λ raw, filter (λ word, 1 < String.length word)
              (sentence_tokens K stem_words remove_num raw)) <$> kept ∧
  kept `sublist_of` (preprocess_text K text stem_words remove_num).2.
Proof.
  intros kept. rewrite preprocess_text_unfold, sentences_before_filter_fmap.
  simpl. split.
  - rewrite filter_fmap, <- list_fmap_compose. done.
  - apply sublist_filter.
Qed.

(** X3. The normalized list is never longer than the raw list, and the two
    have the same length exactly when every raw sentence keeps a token up to
    line 66. *)
Theorem preprocess_text_lengths (K : nltk) (text : string)
    (stem_words remove_num : bool) :
  length (preprocess_text K text stem_words remove_num).1
  ≤ length (preprocess_text K text stem_words remove_num).2 ∧
  (length (preprocess_text K text stem_words remove_num).1
   = length (preprocess_text K text stem_words remove_num).2
   ↔ ∀ raw, raw ∈ sent_tokenize K text →
       sentence_tokens K stem_words remove_num raw ≠ []).
Proof.
  split; [apply preprocess_text_length_le |].
  rewrite preprocess_text_length_eq, sentences_before_filter_fmap.
  rewrite Forall_fmap, Forall_forall. done.
Qed.

(** * Further properties of the chunking *)

(** For a positive chunk size the chunks are the runs of [c] elements that
    start at the multiples of [c] below the length. *)
Lemma split_into_chunks_closed {A} (iterable : list A) (c : nat) :
  1 ≤ c →
  split_into_chunks iterable (Z.of_nat c)
  = Return ((λ k, take c (drop (k * c) iterable))
              <$> seq 0 ((length iterable + c - 1) / c)).
Proof.
  intros Hc. unfold split_into_chunks, range0.
  destruct (decide (Z.of_nat c = 0)%Z) as [? | _]; [lia |].
  destruct (decide (Z.of_nat c < 0)%Z) as [? | _]; [lia |].
  simpl. f_equal. rewrite Nat2Z.id, (range_from_closed c Hc) by lia.
  rewrite Nat.sub_0_r, <- list_fmap_compose.
  pose proof (Nat.div_mod_eq (length iterable + c - 1) c) as Hdm.
  pose proof (Nat.mod_upper_bound (length iterable + c - 1) c) as Hm.
  apply list_fmap_ext. intros j k Hk. apply lookup_seq in Hk as [-> Hk].
  simpl. unfold slice. rewrite chunk_end_min.
  destruct (decide (j * c + c ≤ length iterable)).
  - f_equal. lia.
  - rewrite !take_ge; [done | rewrite length_drop; lia..].
Qed.

(** X4. A chunk size of 0 makes [split_into_chunks] raise [ValueError],
    whatever the list; a negative chunk size makes it return no chunk at
    all, without an error, so that the elements of the list are lost. *)
Theorem split_into_chunks_bad_size {A} (iterable : list A) (chunks_size : Z) :
  (chunks_size ≤ 0)%Z →
  split_into_chunks iterable chunks_size
  = if decide (chunks_size = 0%Z) then Raise ValueError else Return [].
Proof.
  intros Hsize. unfold split_into_chunks, range0.
  destruct (decide (chunks_size = 0)%Z) as [? | ?]; [done |].
  destruct (decide (chunks_size < 0)%Z) as [_ | ?]; [done | lia].
Qed.

Lemma split_into_chunks_bad_size_witness :
  split_into_chunks [1; 2; 3] (-2)
  = if decide ((-2)%Z = 0%Z) then Raise ValueError else Return [].
Proof.
  apply (split_into_chunks_bad_size [1; 2; 3] (-2)). lia.
Defined.

(** X5. A non-empty list that fits in one chunk comes back as a single
    chunk, the list itself. *)
Theorem split_into_chunks_single {A} (iterable : list A) (chunks_size : Z) :
  iterable ≠ [] →
  (Z.of_nat (length iterable) ≤ chunks_size)%Z →
  split_into_chunks iterable chunks_size = Return [iterable].
Proof.
  intros Hne Hfits.
  assert (Hlen : 0 < length iterable) by (destruct iterable; simpl; [done | lia]).
  assert (Hsize : chunks_size = Z.of_nat (Z.to_nat chunks_size)) by lia.
  assert (Hc : length iterable ≤ Z.to_nat chunks_size) by lia.
  rewrite Hsize. generalize dependent (Z.to_nat chunks_size). intros c _ Hc.
  rewrite split_into_chunks_closed by lia.
  replace ((length iterable + c - 1) / c) with 1
    by (apply (Nat.div_unique _ _ 1 (length iterable - 1)); lia).
  simpl. rewrite drop_0. by rewrite take_ge by lia.
Qed.

Lemma split_into_chunks_single_witness :
  split_into_chunks [1; 2; 3] 1000 = Return [[1; 2; 3]].
Proof.
  apply (split_into_chunks_single [1; 2; 3] 1000); [done | simpl; lia].
Defined.

(** X6. The element at index [i] of the list is the element at offset
    [i mod C] of chunk [i / C]; past the end of the list both lookups find
    nothing. *)
Theorem split_into_chunks_lookup {A} (iterable : list A) (chunks_size : Z)
    (batches : list (list A)) (i : nat) :
  (1 ≤ chunks_size)%Z →
  split_into_chunks iterable chunks_size = Return batches →
  batches !! (i / Z.to_nat chunks_size)
    ≫= (λ batch, batch !! (i mod Z.to_nat chunks_size))
  = iterable !! i.
Proof.
  intros HC.
  replace chunks_size with (Z.of_nat (Z.to_nat chunks_size)) at 1 by lia.
  set (c := Z.to_nat chunks_size).
  assert (Hc : 1 ≤ c) by (unfold c; lia).
  rewrite split_into_chunks_closed by done. intros [= <-].
  pose proof (Nat.div_mod_eq i c) as Hi.
  pose proof (Nat.mod_upper_bound i c) as Hmod.
  pose proof (Nat.div_mod_eq (length iterable + c - 1) c) as Hdm.
  pose proof (Nat.mod_upper_bound (length iterable + c - 1) c) as Hm.
  rewrite list_lookup_fmap.
  destruct (decide (i / c < (length iterable + c - 1) / c)) as [Hlt | Hge].
  - rewrite lookup_seq_lt by done. simpl.
    rewrite lookup_take_lt by lia. rewrite lookup_drop. f_equal. lia.
  - rewrite lookup_seq_ge by lia. simpl. symmetry.
    apply lookup_ge_None. nia.
Qed.

Lemma split_into_chunks_lookup_witness :
  [[1; 2; 3]; [4; 5; 6]; [7]] !! (4 / Z.to_nat 3)
    ≫= (λ batch, batch !! (4 mod Z.to_nat 3))
  = [1; 2; 3; 4; 5; 6; 7] !! 4.
Proof.
  apply (split_into_chunks_lookup [1; 2; 3; 4; 5; 6; 7] 3); [lia | reflexivity].
Defined.

(** * Further properties of the batch worker *)

Section MoreLoops.
Context `{Shuffler} {X : Type}.

(** A loop that raises does so in one of its iterations. *)
Lemma for_each_Raise {St} (body : X → St → rng → result St * rng) xs s g e g' :
  for_each body xs s g = (Raise e, g') →
  ∃ x s0 g0, x ∈ xs ∧ body x s0 g0 = (Raise e, g').
Proof.
  revert s g. induction xs as [| x xs IH]; intros s g Hrun; [done |].
  simpl in Hrun. destruct (body x s g) as [[s1 | e1] g1] eqn:Hx.
  - destruct (IH _ _ Hrun) as (y & s0 & g0 & Hy & Hraise).
    exists y, s0, g0. split; [by right | done].
  - inversion Hrun; subst. exists x, s, g. split; [left | done].
Qed.

(** A loop over two lists in a row is the loop over the first followed by
    the loop over the second. *)
Lemma for_each_app {St} (body : X → St → rng → result St * rng) xs ys s g :
  for_each body (xs ++ ys) s g
  = match for_each body xs s g with
    | (Return s', g') => for_each body ys s' g'
    | (Raise e, g') => (Raise e, g')
    end.
Proof.
  revert s g. induction xs as [| x xs IH]; intros s g; [done |].
  simpl. destruct (body x s g) as [[s1 | e1] g1]; [apply IH | done].
Qed.

(** A loop whose iterations only append to the rows they are given does the
    same from any rows it starts with. *)
Lemma for_each_prepend {R} (body : X → list R → rng → result (list R) * rng)
    xs acc s g :
  (∀ x acc s g, body x (acc ++ s) g = prepend acc (body x s g)) →
  for_each body xs (acc ++ s) g = prepend acc (for_each body xs s g).
Proof.
  intros Hbody. revert s g. induction xs as [| x xs IH]; intros s g; [done |].
  simpl. rewrite Hbody.
  destruct (body x s g) as [[s1 | e1] g1]; simpl; [apply IH | done].
Qed.

(** When iteration [x] adds at most [bound x] rows, the loop adds at most
    their sum. *)
Lemma for_each_length {R} (body : X → list R → rng → result (list R) * rng)
    (bound : X → nat) xs s g s' g' :
  (∀ x s g s' g', x ∈ xs → body x s g = (Return s', g') →
     length s' ≤ length s + bound x) →
  for_each body xs s g = (Return s', g') →
  length s' ≤ length s + sum_list (bound <$> xs).
Proof.
  revert s g. induction xs as [| x xs IH]; intros s g Hbody Hrun.
  - simpl in *. inversion Hrun; subst. lia.
  - simpl in Hrun. destruct (body x s g) as [[s1 | e1] g1] eqn:Hx; [| done].
    assert (length s1 ≤ length s + bound x) by (eapply Hbody; [left | done]).
    assert (length s' ≤ length s1 + sum_list (bound <$> xs)).
    { eapply IH; [| done]. intros. eapply Hbody; [by right | done]. }
    csimpl. lia.
Qed.
End MoreLoops.

Section SamplerKept.
Context `{Shuffler}.

(** The sampler goes through whenever there is a normalized sentence and no
    fewer raw ones: it keeps [min 20 n] of the pairs it was given. *)
Lemma sample_body_section_kept g (pp_sentences : list (list string))
    (sentences_raw : list string) :
  0 < length pp_sentences →
  length pp_sentences ≤ length sentences_raw →
  ∃ kept g',
    sample_body_section g pp_sentences sentences_raw
      = (Return (kept.*1, kept.*2), g') ∧
    length kept = 20 `min` length pp_sentences ∧
    kept ⊆+ zip pp_sentences sentences_raw.
Proof.
  intros Hpos Hle. unfold sample_body_section.
  pose proof (shuffle_Permutation g (zip pp_sentences sentences_raw)) as Hperm.
  destruct (shuffle g (zip pp_sentences sentences_raw)) as [shuffled g'].
  simpl in Hperm.
  assert (Hlen : length (take 20 shuffled) = 20 `min` length pp_sentences).
  { rewrite length_take, (Permutation_length Hperm), length_zip. lia. }
  assert (Hsub : take 20 shuffled ⊆+ zip pp_sentences sentences_raw).
  { rewrite <- Hperm. apply sublist_submseteq, sublist_take. }
  destruct (take 20 shuffled) as [| pair kept] eqn:Hkept.
  - cbn [length] in Hlen. lia.
  - exists (pair :: kept), g'. done.
Qed.
End SamplerKept.

Section MoreWorkerFacts.
Context `{Shuffler} (K : nltk) {num : Type} (str : num → string).
Context (json_dumps : list string → string).
Context (embedding_model : option (embedding num)).
Context (stem_words remove_num : bool).

Local Abbreviation sentence_loop article_id section :=
  (for_each (sentence_step str json_dumps embedding_model article_id section)).

(** The three ways an iteration over a sentence pair can go. *)
Lemma sentence_step_cases article_id section pp_sentence raw_sentence s g :
  sentence_step str json_dumps embedding_model article_id section
    (pp_sentence, raw_sentence) s g
  = if decide (pp_sentence ≠ []) then
      match sentence_vector str json_dumps embedding_model pp_sentence with
      | Return vector =>
          (Return (s ++ [[Some article_id; Some section; Some raw_sentence;
                          Some (json_dumps pp_sentence); vector]]), g)
      | Raise e => (Raise e, g)
      end
    else (Return s, g).
Proof.
  unfold sentence_step. case_decide; [| done].
  by destruct (sentence_vector str json_dumps embedding_model pp_sentence).
Qed.

Lemma sentence_step_prepend article_id section pair acc s g :
  sentence_step str json_dumps embedding_model article_id section
    pair (acc ++ s) g
  = prepend acc (sentence_step str json_dumps embedding_model article_id
                   section pair s g).
Proof.
  destruct pair as [pp_sentence raw_sentence].
  rewrite !sentence_step_cases. case_decide; [| done].
  destruct (sentence_vector str json_dumps embedding_model pp_sentence);
    simpl; by rewrite ?app_assoc.
Qed.

(** What a section contributes is a loop over sentence pairs that do not
    depend on the rows gathered so far: pairs of the two lists returned by
    [preprocess_text], at most 20 of them for the body. *)
Lemma section_step_pairs article_id section data g :
  ∃ pairs g1,
    (∀ acc, section_step K str json_dumps embedding_model stem_words
              remove_num article_id (section, data) acc g
            = sentence_loop article_id section pairs acc g1) ∧
    (∀ pair, pair ∈ pairs →
       ∃ text, data = Some text ∧
         pair ∈ zip (preprocess_text K text stem_words remove_num).1
                    (preprocess_text K text stem_words remove_num).2) ∧
    length pairs
    ≤ section_rows_bound K stem_words remove_num (section, data).
Proof.
  unfold section_step, section_rows_bound. cbn [fst snd].
  destruct data as [text |].
  2: { exists [], g. split_and!; [done | by intros ? ?%elem_of_nil | done]. }
  pose proof (preprocess_text_length_le K text stem_words remove_num) as Hle.
  destruct (preprocess_text K text stem_words remove_num)
    as [pp_sentences sentences_raw] eqn:Htext. cbn [fst snd] in *.
  destruct (decide (0 < length pp_sentences)) as [Hpos | Hnone].
  2: { exists [], g. split_and!; [done | by intros ? ?%elem_of_nil | simpl; lia]. }
  destruct (decide (section = "body")) as [-> | Hother].
  - destruct (sample_body_section_kept g pp_sentences sentences_raw Hpos Hle)
      as (kept & g1 & -> & Hlen & Hsub).
    exists kept, g1. rewrite zip_fst_snd. split_and!; [done | | lia].
    intros pair Hpair. exists text. split; [done |]. rewrite Htext.
    by eapply elem_of_submseteq.
  - exists (zip pp_sentences sentences_raw), g.
    split_and!; [done | | rewrite length_zip; lia].
    intros pair Hpair. exists text. by rewrite Htext.
Qed.

Lemma section_step_prepend article_id section_data acc s g :
  section_step K str json_dumps embedding_model stem_words remove_num
    article_id section_data (acc ++ s) g
  = prepend acc (section_step K str json_dumps embedding_model stem_words
                   remove_num article_id section_data s g).
Proof.
  destruct section_data as [section data].
  destruct (section_step_pairs article_id section data g)
    as (pairs & g1 & Hloop & _).
  rewrite !Hloop. apply for_each_prepend. intros. apply sentence_step_prepend.
Qed.

Lemma article_step_prepend article acc s g :
  article_step K str json_dumps embedding_model stem_words remove_num
    article (acc ++ s) g
  = prepend acc (article_step K str json_dumps embedding_model stem_words
                   remove_num article s g).
Proof.
  destruct article as [[[article_id title] abstract] body]. unfold article_step.
  apply for_each_prepend. intros. apply section_step_prepend.
Qed.
End MoreWorkerFacts.

Section BatchFacts.
Context `{Shuffler} (K : nltk) {num : Type} (str : num → string).
Context (json_dumps : list string → string).
Context (batch : list article) (embedding_model : option (embedding num)).
Context (stem_words remove_num : bool).

Local Abbreviation from_batch :=
  (row_origin K str json_dumps batch embedding_model stem_words remove_num).

(** Every row of a normal return has an origin in the batch. *)
Lemma body_rows_origin g rows g' :
  pre_process_batch_of_articles_body K str json_dumps
    (batch, embedding_model, stem_words, remove_num) g = (Return rows, g') →
  Forall from_batch rows.
Proof.
  unfold pre_process_batch_of_articles_body.
  apply for_each_inv; [| by constructor].
  intros [[[article_id title] abstract] body] s1 g1 s1' g1' Harticle Hs1.
  unfold article_step. apply for_each_inv; [| done].
  intros [section data] s2 g2 s2' g2' Hsection Hs2.
  destruct (section_step_pairs K str json_dumps embedding_model stem_words
              remove_num article_id section data g2)
    as (pairs & g3 & -> & Hpairs & _).
  apply for_each_inv; [| done].
  intros [pp_sentence raw_sentence] s3 g4 s3' g4' Hpair Hs3.
  rewrite sentence_step_cases.
  destruct (Hpairs _ Hpair) as (text & -> & Hzip).
  case_decide as Hne; [| by intros [= <- _]].
  destruct (sentence_vector str json_dumps embedding_model pp_sentence)
    as [vector | e] eqn:Hvector; [| done].
  intros [= <- _]. apply Forall_app. split; [done |].
  apply Forall_singleton.
  exists article_id, title, abstract, body, section, text, pp_sentence,
    raw_sentence, vector. done.
Qed.

(** An exception of the worker is an exception of lines 114-120 for a
    non-empty normalized sentence of the batch. *)
Lemma body_Raise g e g' :
  pre_process_batch_of_articles_body K str json_dumps
    (batch, embedding_model, stem_words, remove_num) g = (Raise e, g') →
  ∃ article_id title abstract body section text pp_sentence raw_sentence,
    (article_id, title, abstract, body) ∈ batch ∧
    (section, Some text)
      ∈ zip ["title"; "abstract"; "body"] [title; abstract; body] ∧
    (pp_sentence, raw_sentence)
      ∈ zip (preprocess_text K text stem_words remove_num).1
            (preprocess_text K text stem_words remove_num).2 ∧
    pp_sentence ≠ [] ∧
    sentence_vector str json_dumps embedding_model pp_sentence = Raise e.
Proof.
  unfold pre_process_batch_of_articles_body. intros Hrun.
  apply for_each_Raise in Hrun
    as ([[[article_id title] abstract] body] & s1 & g1 & Harticle & Hrun).
  unfold article_step in Hrun.
  apply for_each_Raise in Hrun as ([section data] & s2 & g2 & Hsection & Hrun).
  destruct (section_step_pairs K str json_dumps embedding_model stem_words
              remove_num article_id section data g2)
    as (pairs & g3 & Hloop & Hpairs & _).
  rewrite Hloop in Hrun.
  apply for_each_Raise in Hrun
    as ([pp_sentence raw_sentence] & s3 & g4 & Hpair & Hrun).
  destruct (Hpairs _ Hpair) as (text & -> & Hzip).
  rewrite sentence_step_cases in Hrun.
  case_decide as Hne; [| done].
  destruct (sentence_vector str json_dumps embedding_model pp_sentence)
    as [vector | e'] eqn:Hvector; [done |].
  injection Hrun as -> _.
  exists article_id, title, abstract, body, section, text, pp_sentence,
    raw_sentence. done.
Qed.

(** No more rows than the sections of the articles allow. *)
Lemma body_rows_length g rows g' :
  pre_process_batch_of_articles_body K str json_dumps
    (batch, embedding_model, stem_words, remove_num) g = (Return rows, g') →
  length rows
  ≤ sum_list (article_rows_bound K stem_words remove_num <$> batch).
Proof.
  unfold pre_process_batch_of_articles_body. intros Hrun.
  apply (for_each_length _ (article_rows_bound K stem_words remove_num))
    in Hrun; [done |].
  intros [[[article_id title] abstract] body] s1 g1 s1' g1' _.
  unfold article_step, article_rows_bound. cbn [fst snd].
  apply for_each_length.
  intros [section data] s2 g2 s2' g2' _.
  destruct (section_step_pairs K str json_dumps embedding_model stem_words
              remove_num article_id section data g2)
    as (pairs & g3 & -> & _ & Hbound).
  intros Hloop. apply (for_each_length _ (λ _, 1)) in Hloop.
  - assert (sum_list ((λ _, 1) <$> pairs) = length pairs) as Hsum.
    { clear. induction pairs; csimpl; [done | lia]. }
    lia.
  - intros [pp_sentence raw_sentence] s3 g4 s3' g4' _.
    rewrite sentence_step_cases. case_decide; [| intros [= <- _]; lia].
    destruct (sentence_vector str json_dumps embedding_model pp_sentence);
      [| done].
    intros [= <- _]. rewrite length_app. simpl. lia.
Qed.
End BatchFacts.

Section MoreRetryFacts.
Context {St A : Type} (exception : exn) (delay : Q) (f : St → result A * St).


(** A call that returns at the first attempt is a single call. *)
Lemma retry_first_Return tries s a s' :
  f s = (Return a, s') →
  retry exception tries delay f s = (Return a, s', [Called None]).
Proof. intros Hf. destruct tries; simpl; by rewrite Hf. Qed.
End MoreRetryFacts.

(** X7. Every row returned by the worker can be traced to the batch: its id
    is the id of an article of the batch, its section is a section of that
    article that has a text, and its raw sentence and its tokens are the
    entries found at one and the same position of the two lists that
    [preprocess_text] returns for that text. *)
Theorem worker_row_origin `{Shuffler} (K : nltk) {num : Type}
    (str : num → string) (json_dumps : list string → string)
    (batch : list article) (embedding_model : option (embedding num))
    (stem_words remove_num : bool) (g g' : rng) (rows : list row)
    (calls : list retry_event) (r : row) :
  pre_process_batch_of_articles K str json_dumps
    (batch, embedding_model, stem_words, remove_num) g
    = (Return rows, g', calls) →
  r ∈ rows →
  ∃ article_id title abstract body section text pp_sentence raw_sentence vector,
    (article_id, title, abstract, body) ∈ batch ∧
    (section, Some text)
      ∈ zip ["title"; "abstract"; "body"] [title; abstract; body] ∧
    (pp_sentence, raw_sentence)
      ∈ zip (preprocess_text K text stem_words remove_num).1
            (preprocess_text K text stem_words remove_num).2 ∧
    r = [Some article_id; Some section; Some raw_sentence;
         Some (json_dumps pp_sentence); vector].
Proof.
  unfold pre_process_batch_of_articles. intros Hcall Hr.
  apply retry_Return in Hcall as [g0 Hbody].
  apply body_rows_origin in Hbody.
  rewrite Forall_forall in Hbody.
  destruct (Hbody r Hr)
    as (article_id & title & abstract & body & section & text & pp_sentence
        & raw_sentence & vector & ? & ? & ? & _ & _ & ?).
  exists article_id, title, abstract, body, section, text, pp_sentence,
    raw_sentence, vector. done.
Qed.

Lemma worker_row_origin_witness :
  ∃ article_id title abstract body section text pp_sentence raw_sentence vector,
    (article_id, title, abstract, body) ∈ [sample_article] ∧
    (section, Some text)
      ∈ zip ["title"; "abstract"; "body"] [title; abstract; body] ∧
    (pp_sentence, raw_sentence)
      ∈ zip (preprocess_text sample_nltk text false true).1
            (preprocess_text sample_nltk text false true).2 ∧
    [Some "a1"; Some "body"; Some "B 5."; Some (sample_json_dumps ["cats"]);
     Some (sample_json_dumps ["4"])]
    = [Some article_id; Some section; Some raw_sentence;
       Some (sample_json_dumps pp_sentence); vector].
Proof.
  eapply (worker_row_origin (H := backwards) sample_nltk pretty
            sample_json_dumps [sample_article] (Some word_lengths) false true
            tt).
  - vm_compute. reflexivity.
  - right. left.
Defined.

(** X8. The embedding stored in a row is the one computed for the tokens
    stored in the same row: without a model it is [None]; with a model, the
    model returned a vector for these tokens and the row holds the JSON text
    of its components, each one turned into a string. *)
Theorem worker_row_vector `{Shuffler} (K : nltk) {num : Type}
    (str : num → string) (json_dumps : list string → string)
    (batch : list article) (embedding_model : option (embedding num))
    (stem_words remove_num : bool) (g g' : rng) (rows : list row)
    (calls : list retry_event) (r : row) :
  pre_process_batch_of_articles K str json_dumps
    (batch, embedding_model, stem_words, remove_num) g
    = (Return rows, g', calls) →
  r ∈ rows →
  ∃ pp_sentence vector,
    r !! 3 = Some (Some (json_dumps pp_sentence)) ∧
    r !! 4 = Some vector ∧
    match embedding_model with
    | None => vector = None
    | Some model =>
        ∃ components,
          compute_sentence_vector model pp_sentence = Return (Some components) ∧
          vector = Some (json_dumps (str <$> components))
    end.
Proof.
  unfold pre_process_batch_of_articles. intros Hcall Hr.
  apply retry_Return in Hcall as [g0 Hbody].
  apply body_rows_origin in Hbody.
  rewrite Forall_forall in Hbody.
  destruct (Hbody r Hr)
    as (article_id & title & abstract & body & section & text & pp_sentence
        & raw_sentence & vector & _ & _ & _ & _ & Hvector & ->).
  exists pp_sentence, vector. split; [done |]. split; [done |].
  unfold sentence_vector in Hvector.
  destruct embedding_model as [model |]; [| by inversion Hvector].
  destruct (compute_sentence_vector model pp_sentence) as [[components |] | e];
    simpl in Hvector; inversion Hvector; subst. eauto.
Qed.

Lemma worker_row_vector_witness :
  ∃ pp_sentence vector,
    [Some "a1"; Some "title"; Some "COVID-19 spreads fast.";
     Some (sample_json_dumps ["covid"; "spreads"; "fast"]);
     Some (sample_json_dumps ["5"; "7"; "4"])] !! 3
    = Some (Some (sample_json_dumps pp_sentence)) ∧
    [Some "a1"; Some "title"; Some "COVID-19 spreads fast.";
     Some (sample_json_dumps ["covid"; "spreads"; "fast"]);
     Some (sample_json_dumps ["5"; "7"; "4"])] !! 4
    = Some vector ∧
    ∃ components,
      compute_sentence_vector word_lengths pp_sentence
        = Return (Some components) ∧
      vector = Some (sample_json_dumps (pretty <$> components)).
Proof.
  eapply (worker_row_vector (H := backwards) sample_nltk pretty
            sample_json_dumps [sample_article] (Some word_lengths) false true
            tt).
  - vm_compute. reflexivity.
  - left.
Defined.



(** Without a model, lines 114-120 cannot raise, so neither can the
    worker. *)
Lemma pre_process_batch_of_articles_no_model `{Shuffler} (K : nltk)
    {num : Type} (str : num → string) (json_dumps : list string → string)
    (batch : list article) (stem_words remove_num : bool) (g : rng) :
  ∃ rows g',
    pre_process_batch_of_articles (num := num) K str json_dumps
      (batch, None, stem_words, remove_num) g
    = (Return rows, g', [Called None]).
Proof.
  unfold pre_process_batch_of_articles.
  destruct (pre_process_batch_of_articles_body K str json_dumps
              (batch, None, stem_words, remove_num) g)
    as [[rows | e] g'] eqn:Hbody.
  - exists rows, g'. by apply retry_first_Return.
  - apply body_Raise in Hbody
      as (_ & _ & _ & _ & _ & _ & pp_sentence & _ & _ & _ & _ & _ & Hvector).
    done.
Qed.

(** X10. Without an embedding model the worker cannot fail: for every batch
    and every setting of the flags a decorated call returns rows after a
    single call of the worker, without any pause, and each of these rows
    ends with [None]. *)
Theorem worker_without_model_returns `{Shuffler} (K : nltk) {num : Type}
    (str : num → string) (json_dumps : list string → string)
    (batch : list article) (stem_words remove_num : bool) (g : rng) :
  ∃ rows g',
    pre_process_batch_of_articles (num := num) K str json_dumps
      (batch, None, stem_words, remove_num) g
    = (Return rows, g', [Called None]) ∧
    ∀ r, r ∈ rows → r !! 4 = Some None.
Proof.
  destruct (pre_process_batch_of_articles_no_model (num := num) K str
              json_dumps batch stem_words remove_num g)
    as (rows & g' & Hcall).
  exists rows, g'. split; [done |]. intros r Hr.
  unfold pre_process_batch_of_articles in Hcall.
  apply retry_Return in Hcall as [g0 Hbody].
  apply body_rows_origin in Hbody. rewrite Forall_forall in Hbody.
  destruct (Hbody r Hr)
    as (? & ? & ? & ? & ? & ? & ? & ? & vector & _ & _ & _ & _ & Hvector & ->).
  simpl in Hvector. by inversion Hvector.
Qed.

(** A section allows one row per normalized sentence, and the body 20 at
    most. *)
Lemma section_rows_bound_le (K : nltk) (stem_words remove_num : bool)
    (section : string) (data : option string) :
  section_rows_bound K stem_words remove_num (section, data)
  ≤ length (from_option
              (λ text, (preprocess_text K text stem_words remove_num).1)
              [] data) ∧
  (section = "body" →
   section_rows_bound K stem_words remove_num (section, data) ≤ 20).
Proof.
  unfold section_rows_bound. cbn [fst snd].
  destruct data as [text |]; cbn [from_option length]; [| lia].
  generalize (length (preprocess_text K text stem_words remove_num).1).
  intros n. case_decide; (split; [lia | intros ?; first [lia | done]]).
Qed.

(** X11. The worker returns at most one row per normalized sentence of a
    title or an abstract and at most 20 rows for a body. *)
Theorem worker_rows_bound `{Shuffler} (K : nltk) {num : Type}
    (str : num → string) (json_dumps : list string → string)
    (batch : list article) (embedding_model : option (embedding num))
    (stem_words remove_num : bool) (g g' : rng) (rows : list row)
    (calls : list retry_event) :
  pre_process_batch_of_articles K str json_dumps
    (batch, embedding_model, stem_words, remove_num) g
    = (Return rows, g', calls) →
  length rows
  ≤ sum_list (article_rows_bound K stem_words remove_num <$> batch) ∧
  ∀ article, article ∈ batch →
    article_rows_bound K stem_words remove_num article
    ≤ length (from_option (λ text, (preprocess_text K text stem_words remove_num).1)
                [] article.1.1.2)
      + length (from_option (λ text, (preprocess_text K text stem_words remove_num).1)
                  [] article.1.2)
      + 20.
Proof.
  unfold pre_process_batch_of_articles. intros Hcall.
  apply retry_Return in Hcall as [g0 Hbody].
  split; [by eapply body_rows_length |].
  intros [[[article_id title] abstract] body] _.
  destruct (section_rows_bound_le K stem_words remove_num "title" title)
    as [Htitle _].
  destruct (section_rows_bound_le K stem_words remove_num "abstract" abstract)
    as [Habstract _].
  destruct (section_rows_bound_le K stem_words remove_num "body" body)
    as [_ Hbody20]. specialize (Hbody20 eq_refl).
  unfold article_rows_bound.
  cbn -[section_rows_bound from_option preprocess_text] in *. lia.
Qed.

Lemma worker_rows_bound_witness :
  length [[Some "a1"; Some "title"; Some "COVID-19 spreads fast.";
           Some (sample_json_dumps ["covid"; "19"; "spread"; "fast"]); None];
          [Some "a1"; Some "body"; Some "B 5.";
           Some (sample_json_dumps ["cat"; "2020"]); None]]
  ≤ sum_list (article_rows_bound sample_nltk true false <$> [sample_article]) ∧
  ∀ article, article ∈ [sample_article] →
    article_rows_bound sample_nltk true false article
    ≤ length (from_option (λ text, (preprocess_text sample_nltk text true false).1)
                [] article.1.1.2)
      + length (from_option (λ text, (preprocess_text sample_nltk text true false).1)
                  [] article.1.2)
      + 20.
Proof.
  eapply (worker_rows_bound (H := backwards) sample_nltk pretty
            sample_json_dumps [sample_article] (@None (embedding nat))
            true false tt).
  vm_compute. reflexivity.
Defined.

(** X12. Processing two batches in a row is processing their concatenation:
    the worker, run on [batch1 ++ batch2], raises what it raises on
    [batch1]; otherwise it goes on from the generator state that [batch1]
    left and returns the rows of [batch1] followed by the rows of [batch2],
    or raises what it raises on [batch2]. *)
Theorem worker_batch_app `{Shuffler} (K : nltk) {num : Type}
    (str : num → string) (json_dumps : list string → string)
    (batch1 batch2 : list article) (embedding_model : option (embedding num))
    (stem_words remove_num : bool) (g : rng) :
  pre_process_batch_of_articles_body K str json_dumps
    (batch1 ++ batch2, embedding_model, stem_words, remove_num) g
  = match pre_process_batch_of_articles_body K str json_dumps
            (batch1, embedding_model, stem_words, remove_num) g with
    | (Raise e, g1) => (Raise e, g1)
    | (Return rows1, g1) =>
        match pre_process_batch_of_articles_body K str json_dumps
                (batch2, embedding_model, stem_words, remove_num) g1 with
        | (Return rows2, g2) => (Return (rows1 ++ rows2), g2)
        | (Raise e, g2) => (Raise e, g2)
        end
    end.
Proof.
  unfold pre_process_batch_of_articles_body. rewrite for_each_app.
  destruct (for_each (article_step K str json_dumps embedding_model
                        stem_words remove_num) batch1 [] g)
    as [[rows1 | e] g1]; [| done].
  rewrite <- (app_nil_r rows1) at 1.
  rewrite for_each_prepend by (intros; apply article_step_prepend).
  done.
Qed.

(** * Further properties of the driver *)

Section MoreDriverFacts.
Context `{Shuffler} `{Pool} (K : nltk) {num : Type} (str : num → string).
Context (json_dumps : list string → string).

(** Running the tasks writes nothing: it adds one [Worker] event per task
    and yields one result per task. *)
Lemma run_tasks_frame arguments g w :
  let '(results, g', w') := run_tasks K str json_dumps arguments g w in
  length results = length arguments ∧
  db_tables w' = db_tables w ∧
  db_articles w' = db_articles w ∧
  ∃ events,
    trace w' = trace w ++ events ∧
    length events = length arguments ∧
    Forall (λ ev, ∃ batch calls, ev = Worker batch calls) events.
Proof.
  revert g w. induction arguments as [| args rest IH]; intros g w; simpl.
  - split_and!; [done..|]. exists []. by rewrite app_nil_r.
  - destruct (pre_process_batch_of_articles K str json_dumps args g)
      as [[r g1] calls].
    specialize (IH g1 (emit (Worker args.1.1.1 calls) w)).
    destruct (run_tasks K str json_dumps rest g1
                (emit (Worker args.1.1.1 calls) w)) as [[rs g2] w2].
    destruct IH as (Hlen & Htables & Harticles & events & Htrace & Hevents & Hall).
    simpl in *. split_and!; [lia | done | done |].
    exists (Worker args.1.1.1 calls :: events).
    split_and!; [by rewrite Htrace, <- app_assoc | simpl; lia |].
    constructor; [eauto | done].
Qed.

(** Lines 200-207 add up the sizes of the batches and hand each batch to
    [insert_rows] for the table "sentences", in the order of the list. *)
Lemma insert_batches_spec batches_to_insert inserted_sentences w :
  let '(total, w') := insert_batches batches_to_insert inserted_sentences w in
  total = inserted_sentences + length (concat batches_to_insert) ∧
  trace w'
  = trace w ++ ((λ batch, Inserted "sentences" (length batch))
                  <$> batches_to_insert) ∧
  default [] (db_tables w' !! "sentences")
  = default [] (db_tables w !! "sentences") ++ concat batches_to_insert ∧
  (∀ table_name, table_name ≠ "sentences" →
     db_tables w' !! table_name = db_tables w !! table_name) ∧
  db_articles w' = db_articles w.
Proof.
  revert inserted_sentences w.
  induction batches_to_insert as [| batch rest IH]; intros n w; simpl.
  - rewrite !app_nil_r. split_and!; [lia | done..].
  - specialize (IH (n + length batch) (insert_rows batch "sentences" w)).
    destruct (insert_batches rest (n + length batch)
                (insert_rows batch "sentences" w)) as [total w'].
    destruct IH as (Htotal & Htrace & Htable & Hother & Harticles).
    simpl in *. rewrite lookup_insert_eq in Htable. simpl in Htable.
    split_and!.
    + rewrite length_app. lia.
    + by rewrite Htrace, <- app_assoc.
    + by rewrite Htable, <- app_assoc.
    + intros table_name Hne. rewrite (Hother _ Hne).
      by rewrite lookup_insert_ne.
    + done.
Qed.
End MoreDriverFacts.

Section DriverRuns.
Context `{Shuffler} `{Pool} (K : nltk) {num : Type} (str : num → string).
Context (json_dumps : list string → string).


End DriverRuns.


(** X13. With [first_launch] [False] and no file at [db_path], the driver
    raises [AssertionError] and has done nothing at all, not even printed:
    the store, the trace and the generator are as they were. *)
Theorem driver_store_is_missing `{Shuffler} `{Pool} (K : nltk) {num : Type}
    (str : num → string) (json_dumps : list string → string)
    (embedding_model : option (embedding num)) (db_path : string)
    (stem_words remove_num : bool) (batch_size : Z) (g : rng) (w : world) :
  db_is_file w = false →
  pre_process_and_vectorize_texts K str json_dumps embedding_model db_path
    false stem_words remove_num batch_size g w
  = (Raise AssertionError, g, w).
Proof.
  intros Hfile. unfold pre_process_and_vectorize_texts. by rewrite Hfile.
Qed.

Lemma driver_store_is_missing_witness :
  pre_process_and_vectorize_texts (H := backwards) (H0 := in_order)
    sample_nltk pretty sample_json_dumps (Some word_lengths)
    "articles_database.sqlite" false false true 1000 tt (World false [] ∅ [])
  = (Raise AssertionError, tt, World false [] ∅ []).
Proof.
  apply (driver_store_is_missing (H := backwards) (H0 := in_order)
           sample_nltk pretty sample_json_dumps (Some word_lengths)
           "articles_database.sqlite" false true 1000 tt (World false [] ∅ [])).
  reflexivity.
Defined.

(** X14. With [first_launch] [True] and a batch size that is not positive,
    the driver fails right after loading the records, whatever their number:
    with [ValueError] for a batch size of 0 and with [IndexError] for a
    negative one, where the list of chunks is empty. Nothing is printed, no
    worker runs and nothing is inserted. *)
Theorem driver_bad_batch_size `{Shuffler} `{Pool} (K : nltk) {num : Type}
    (str : num → string) (json_dumps : list string → string)
    (embedding_model : option (embedding num)) (db_path : string)
    (stem_words remove_num : bool) (batch_size : Z) (g : rng) (w : world) :
  (batch_size ≤ 0)%Z →
  pre_process_and_vectorize_texts K str json_dumps embedding_model db_path
    true stem_words remove_num batch_size g w
  = (Raise (if decide (batch_size = 0%Z) then ValueError else IndexError),
     g, emit (Loaded (length (db_articles w))) w).
Proof.
  intros Hsize. unfold pre_process_and_vectorize_texts, get_all_articles_data.
  unfold split_into_chunks, range0.
  destruct (decide (batch_size = 0%Z)) as [? | ?]; [done |].
  destruct (decide (batch_size < 0)%Z) as [_ | ?]; [done | lia].
Qed.

Lemma driver_bad_batch_size_witness :
  pre_process_and_vectorize_texts (H := backwards) (H0 := in_order)
    sample_nltk pretty sample_json_dumps (Some word_lengths)
    "articles_database.sqlite" true false true (-5) tt sample_store
  = (Raise (if decide ((-5)%Z = 0%Z) then ValueError else IndexError),
     tt, emit (Loaded (length (db_articles sample_store))) sample_store).
Proof.
  apply (driver_bad_batch_size (H := backwards) (H0 := in_order)
           sample_nltk pretty sample_json_dumps (Some word_lengths)
           "articles_database.sqlite" false true (-5) tt sample_store).
  lia.
Defined.

(** X15. Every exception of the driver comes before the insertion loop:
    whenever a run ends with an exception, be it from the chunking, from the
    progress message or from a worker, the tables are as they were and the
    run has inserted nothing. *)
Theorem driver_raises_before_insert `{Shuffler} `{Pool} (K : nltk)
    {num : Type} (str : num → string) (json_dumps : list string → string)
    (embedding_model : option (embedding num)) (db_path : string)
    (first_launch stem_words remove_num : bool) (batch_size : Z) (g : rng)
    (w : world) (e : exn) :
  let run := pre_process_and_vectorize_texts K str json_dumps embedding_model
               db_path first_launch stem_words remove_num batch_size g w in
  run.1.1 = Raise e →
  db_tables run.2 = db_tables w ∧
  ∃ events,
    trace run.2 = trace w ++ events ∧
    Forall (λ ev, ∀ table_name rows, ev ≠ Inserted table_name rows) events.
Proof.
  intros run. unfold run, pre_process_and_vectorize_texts.
  destruct first_launch.
  2: { destruct (db_is_file w); simpl; [done |]. intros _.
       split; [done |]. exists []. by rewrite app_nil_r. }
  unfold get_all_articles_data.
  destruct (split_into_chunks (db_articles w) batch_size) as [batches | e1].
  2: { simpl. intros _. split; [done |]. eexists. split; [done |].
       by repeat constructor. }
  destruct (batches !! 0) as [first_batch |].
  2: { simpl. intros _. split; [done |]. eexists. split; [done |].
       by repeat constructor. }
  set (arguments := (λ batch, (batch, embedding_model, stem_words, remove_num))
                      <$> batches).
  set (w2 := emit _ (emit _ w)).
  pose proof (run_tasks_frame K str json_dumps arguments g w2) as Hframe.
  destruct (run_tasks K str json_dumps arguments g w2) as [[results g3] w3].
  destruct Hframe as (_ & Htables & _ & events & Htrace & _ & Hworkers).
  destruct (gather _) as [batches_to_insert | e2].
  { destruct (insert_batches _ _ _). done. }
  simpl. intros _. split; [done |].
  eexists. split.
  { rewrite Htrace. unfold w2. simpl. rewrite <- !app_assoc. done. }
  simpl. repeat (constructor; [done |]).
  eapply Forall_impl; [exact Hworkers |].
  intros ev (batch & calls & ->). done.
Qed.

Lemma driver_raises_before_insert_witness :
  let run := pre_process_and_vectorize_texts (H := backwards)
               (H0 := in_order) sample_nltk pretty sample_json_dumps
               (Some knows_no_word) "articles_database.sqlite"
               true false true 1000 tt sample_store in
  db_tables run.2 = db_tables sample_store ∧
  ∃ events,
    trace run.2 = trace sample_store ++ events ∧
    Forall (λ ev, ∀ table_name rows, ev ≠ Inserted table_name rows) events.
Proof.
  apply (driver_raises_before_insert (H := backwards) (H0 := in_order)
           sample_nltk pretty sample_json_dumps (Some knows_no_word)
           "articles_database.sqlite" true false true 1000 tt sample_store
           TypeError).
  vm_compute. reflexivity.
Defined.

(** X16. The insertion loop of lines 200-207 is a pure append: the count it
    returns has grown by the number of rows of all the batches, which are
    handed over one batch at a time, in order; the table "sentences" holds
    its former rows followed by the rows of the batches in that order; no
    other table and no article is touched. *)
Theorem insert_batches_appends (batches_to_insert : list (list row))
    (inserted_sentences : nat) (w : world) :
  let done := insert_batches batches_to_insert inserted_sentences w in
  done.1 = inserted_sentences + length (concat batches_to_insert) ∧
  trace done.2
  = trace w ++ ((λ batch, Inserted "sentences" (length batch))
                  <$> batches_to_insert) ∧
  default [] (db_tables done.2 !! "sentences")
  = default [] (db_tables w !! "sentences") ++ concat batches_to_insert ∧
  (∀ table_name, table_name ≠ "sentences" →
     db_tables done.2 !! table_name = db_tables w !! table_name) ∧
  db_articles done.2 = db_articles w.
Proof.
  intros done. unfold done.
  pose proof (insert_batches_spec batches_to_insert inserted_sentences w)
    as Hspec.
  by destruct (insert_batches batches_to_insert inserted_sentences w).
Qed.



(** * The tokenizer of line 35 *)

Lemma flush_spec (cur : list ascii) (acc : list string) :
  Forall (λ c, is_word_char c = true) cur →
  ∃ tokens,
    flush cur acc = acc ++ tokens ∧
    Forall (λ token, token ≠ EmptyString ∧
              Forall (λ c, is_word_char c = true) (list_ascii_of_string token))
      tokens ∧
    concat (list_ascii_of_string <$> tokens) = rev cur.
Proof.
  intros Hcur. destruct cur as [| c cur].
  - exists []. by rewrite app_nil_r.
  - exists [string_of_list_ascii (rev (c :: cur))]. split; [done |].
    split.
    + apply Forall_singleton. split.
      * intros Hempty. apply (f_equal list_ascii_of_string) in Hempty.
        rewrite list_ascii_of_string_of_list_ascii in Hempty. simpl in Hempty.
        by destruct (rev cur).
      * rewrite list_ascii_of_string_of_list_ascii.
        by apply Forall_rev.
    + simpl. by rewrite list_ascii_of_string_of_list_ascii, app_nil_r.
Qed.

Lemma findall_word_spec (s : string) (cur : list ascii) (acc : list string) :
  Forall (λ c, is_word_char c = true) cur →
  ∃ tokens,
    findall_word s cur acc = acc ++ tokens ∧
    Forall (λ token, token ≠ EmptyString ∧
              Forall (λ c, is_word_char c = true) (list_ascii_of_string token))
      tokens ∧
    concat (list_ascii_of_string <$> tokens)
    = rev cur ++ filter (λ c, is_word_char c = true) (list_ascii_of_string s).
Proof.
  revert cur acc. induction s as [| c s IH]; intros cur acc Hcur; simpl.
  - destruct (flush_spec cur acc Hcur) as (tokens & ? & ? & ?).
    exists tokens. by rewrite filter_nil, app_nil_r.
  - rewrite filter_cons. destruct (is_word_char c) eqn:Hc.
    + destruct (IH (c :: cur) acc) as (tokens & ? & ? & Hconcat);
        [by constructor |].
      exists tokens. split_and!; [done..|].
      rewrite Hconcat. simpl. rewrite <- app_assoc.
      by destruct (decide (true = true)).
    + destruct (flush_spec cur acc Hcur) as (tokens1 & -> & ? & Hconcat1).
      destruct (IH [] (acc ++ tokens1)) as (tokens2 & -> & ? & Hconcat2);
        [constructor |].
      exists (tokens1 ++ tokens2). split_and!.
      * by rewrite app_assoc.
      * by apply Forall_app.
      * rewrite fmap_app, concat_app, Hconcat1, Hconcat2. simpl.
        by destruct (decide (false = true)).
Qed.

(** X18. The tokenizer of line 35, read on ASCII text, never yields an empty
    token, every character of a token is a letter, a digit or an
    underscore, and the tokens put end to end are the word characters of the
    text in their order: tokenizing drops the other characters and nothing
    else. *)
Theorem regexp_tokenize_tokens (s : string) :
  (∀ token, token ∈ regexp_tokenize s →
     1 ≤ String.length token ∧
     ∀ c, c ∈ list_ascii_of_string token → is_word_char c = true) ∧
  concat (list_ascii_of_string <$> regexp_tokenize s)
  = filter (λ c, is_word_char c = true) (list_ascii_of_string s).
Proof.
  unfold regexp_tokenize.
  destruct (findall_word_spec s [] []) as (tokens & -> & Hall & Hconcat);
    [constructor |].
  simpl in *. split; [| done].
  intros token Htoken. rewrite Forall_forall in Hall.
  destruct (Hall token Htoken) as [Hne Hchars]. split.
  - destruct token; [done | simpl; lia].
  - by apply Forall_forall.
Qed.
